(** * Recurring-transaction generation of the monthly finance tracker

    Shallow embedding of the module [@/lib/recurring-utils]
    ([getNextOccurrence], [generateDueTransactions]; its text is the last
    part of [src/components/FinanceTracker.tsx], lines 595-672), of the
    processing pass [processRecurringTransactions] of the [FinanceTracker]
    component (same file, lines 246-310) and of the [PATCH] handler of
    [/api/recurring] as far as the pass uses it.

    A JavaScript [Date] is its time value: an integer number of milliseconds
    since 1970-01-01T00:00:00Z, here a [Z].  The calendar fields of a time
    value are those of ECMA-262 (section "Time Values and Time Range"); the
    host time zone is taken to be UTC, so local time and UTC coincide and no
    daylight-saving shift occurs.  Invalid dates (NaN time values) are
    outside the model: the API routes of the repository reject them before a
    schedule is stored. *)

From Stdlib Require Import ZArith QArith List Sorted String Bool Lia.
From Stdlib Require Import DecimalString DecimalZ.
Import ListNotations.
Open Scope Z_scope.

(** ** ECMA-262 date arithmetic *)

Module Ecma.

Definition msPerDay : Z := 86400000.

Definition Day (t : Z) : Z := t / msPerDay.
Definition TimeWithinDay (t : Z) : Z := t mod msPerDay.

Definition isLeap (y : Z) : bool :=
  (y mod 4 =? 0) && (negb (y mod 100 =? 0) || (y mod 400 =? 0)).

Definition DaysInYear (y : Z) : Z := if isLeap y then 366 else 365.

Definition DayFromYear (y : Z) : Z :=
  365 * (y - 1970) + (y - 1969) / 4 - (y - 1901) / 100 + (y - 1601) / 400.

(** ECMA-262 defines the year of a time value as the largest [y] whose
    first day is not after it.  It is computed from the mean length of a
    Gregorian year (146097 days in 400 years) and corrected by one. *)
Definition YearFromDay (d : Z) : Z :=
  let y0 := 1970 + (d * 400) / 146097 in
  if d <? DayFromYear y0 then y0 - 1
  else if DayFromYear (y0 + 1) <=? d then y0 + 1
  else y0.

Definition DayWithinYear (d : Z) : Z := d - DayFromYear (YearFromDay d).

Definition leapDay (leap : bool) : Z := if leap then 1 else 0.

(** Number of days of the year before month [m] (0 = January). *)
Definition daysBeforeMonth (leap : bool) (m : Z) : Z :=
  if m <=? 0 then 0
  else if m =? 1 then 31
  else if m =? 2 then 59 + leapDay leap
  else if m =? 3 then 90 + leapDay leap
  else if m =? 4 then 120 + leapDay leap
  else if m =? 5 then 151 + leapDay leap
  else if m =? 6 then 181 + leapDay leap
  else if m =? 7 then 212 + leapDay leap
  else if m =? 8 then 243 + leapDay leap
  else if m =? 9 then 273 + leapDay leap
  else if m =? 10 then 304 + leapDay leap
  else if m =? 11 then 334 + leapDay leap
  else 365 + leapDay leap.

Definition monthOfDayWithinYear (leap : bool) (dwy : Z) : Z :=
  if dwy <? 31 then 0
  else if dwy <? 59 + leapDay leap then 1
  else if dwy <? 90 + leapDay leap then 2
  else if dwy <? 120 + leapDay leap then 3
  else if dwy <? 151 + leapDay leap then 4
  else if dwy <? 181 + leapDay leap then 5
  else if dwy <? 212 + leapDay leap then 6
  else if dwy <? 243 + leapDay leap then 7
  else if dwy <? 273 + leapDay leap then 8
  else if dwy <? 304 + leapDay leap then 9
  else if dwy <? 334 + leapDay leap then 10
  else 11.

Definition YearFromTime (t : Z) : Z := YearFromDay (Day t).

Definition InLeapYear (t : Z) : bool := isLeap (YearFromTime t).

Definition MonthFromTime (t : Z) : Z :=
  monthOfDayWithinYear (InLeapYear t) (DayWithinYear (Day t)).

Definition DateFromTime (t : Z) : Z :=
  DayWithinYear (Day t)
  - daysBeforeMonth (InLeapYear t) (MonthFromTime t) + 1.

(** [MakeDay year month date]: the day number of day [date] of month
    [month] of [year]; months outside 0..11 carry into the year and dates
    outside the month carry into the neighbouring months. *)
Definition MakeDay (year month date : Z) : Z :=
  let ym := year + month / 12 in
  let mn := month mod 12 in
  DayFromYear ym + daysBeforeMonth (isLeap ym) mn + date - 1.

Definition MakeDate (day time : Z) : Z := day * msPerDay + time.

(** The [Date.prototype] methods used by date-fns, on time values. *)
Definition getFullYear (t : Z) : Z := YearFromTime t.
Definition getMonth (t : Z) : Z := MonthFromTime t.
Definition getDate (t : Z) : Z := DateFromTime t.

Definition setHours0 (t : Z) : Z := MakeDate (Day t) 0.

Definition setDate (t dt : Z) : Z :=
  MakeDate (MakeDay (YearFromTime t) (MonthFromTime t) dt) (TimeWithinDay t).

Definition setMonth (t month dt : Z) : Z :=
  MakeDate (MakeDay (YearFromTime t) month dt) (TimeWithinDay t).

Definition setFullYear (t year month dt : Z) : Z :=
  MakeDate (MakeDay year month dt) (TimeWithinDay t).

(** [Date.UTC(year, month, date)] at midnight, [month] counted from 0. *)
Definition utc (year month date : Z) : Z :=
  MakeDate (MakeDay year month date) 0.

End Ecma.

(** ** The date-fns functions imported by [recurring-utils]

    date-fns is a dependency of the repository; its functions are
    transcribed from the library: each one copies its argument and applies
    the [Date.prototype] setters shown. *)

Module DateFns.
Import Ecma.

Definition startOfDay (d : Z) : Z := setHours0 d.

Definition addDays (d amount : Z) : Z :=
  if amount =? 0 then d else setDate d (getDate d + amount).

Definition addWeeks (d amount : Z) : Z := addDays d (amount * 7).

(** [addMonths] keeps the day of the month unless the desired month is
    shorter, in which case it returns the last day of that month. *)
Definition addMonths (d amount : Z) : Z :=
  if amount =? 0 then d
  else
    let dayOfMonth := getDate d in
    let endOfDesiredMonth := setMonth d (getMonth d + amount + 1) 0 in
    let daysInMonth := getDate endOfDesiredMonth in
    if dayOfMonth >=? daysInMonth then endOfDesiredMonth
    else setFullYear d (getFullYear endOfDesiredMonth)
                       (getMonth endOfDesiredMonth) dayOfMonth.

Definition addYears (d amount : Z) : Z := addMonths d (amount * 12).

Definition isAfter (d dateToCompare : Z) : bool := d >? dateToCompare.
Definition isBefore (d dateToCompare : Z) : bool := d <? dateToCompare.

End DateFns.

Import Ecma DateFns.

(** ** Data model ([src/types/finance.ts], [src/db/schema.ts]) *)

Inductive TransactionType : Set := income | expense.

(** The four recurrence frequencies, and any other value that reaches the
    [default] branch of [getNextOccurrence] at run time. *)
Inductive RecurrenceFrequency : Set :=
  daily | weekly | monthly | yearly | otherFrequency.

Definition validFrequency (f : RecurrenceFrequency) : bool :=
  match f with otherFrequency => false | _ => true end.

(** Dates are stored as ISO strings and read back with [new Date(...)];
    the records hold the time value so obtained.  [None] is the [null] of a
    column without value, which the code tests by truthiness.  [amount] is
    a JavaScript number; the code only copies it. *)
Module RecurringTransaction.
Record t : Type := mk {
  id : Z;
  type : TransactionType;
  amount : Q;
  category : string;
  description : option string;
  frequency : RecurrenceFrequency;
  startDate : Z;
  endDate : option Z;
  lastGenerated : option Z;
  isActive : bool
}.

Definition withLastGenerated (r : t) (lg : option Z) : t :=
  mk (id r) (type r) (amount r) (category r) (description r) (frequency r)
     (startDate r) (endDate r) lg (isActive r).
End RecurringTransaction.

(** [Omit<Transaction, 'id'>]; [date] is the time value whose
    [toISOString()] rendering the code stores (the rendering determines the
    time value and is read back to it by [new Date(...)]). *)
Module Transaction.
Record t : Type := mk {
  type : TransactionType;
  amount : Q;
  category : string;
  description : string;
  date : Z;
  recurringId : option Z
}.

Definition withRecurringId (x : t) (rid : Z) : t :=
  mk (type x) (amount x) (category x) (description x) (date x) (Some rid).
End Transaction.

(** String conversion of a template-literal substitution; a missing
    description arrives as [null]. *)
Definition templateString (o : option string) : string :=
  match o with
  | Some s => s
  | None => "null"
  end.

(** ** [recurring-utils] *)

Definition getNextOccurrence
    (recurring : RecurringTransaction.t) (fromDate : Z) : Z :=
  let start := startOfDay fromDate in
  match RecurringTransaction.frequency recurring with
  | daily => addDays start 1
  | weekly => addWeeks start 1
  | monthly => addMonths start 1
  | yearly => addYears start 1
  | otherFrequency => start
  end.

(** [recurring.endDate && isAfter(d, startOfDay(new Date(recurring.endDate)))] *)
Definition afterEndDate (recurring : RecurringTransaction.t) (d : Z) : bool :=
  match RecurringTransaction.endDate recurring with
  | Some e => isAfter d (startOfDay e)
  | None => false
  end.

Definition autoTransaction
    (recurring : RecurringTransaction.t) (nextDue : Z) : Transaction.t :=
  {| Transaction.type := RecurringTransaction.type recurring;
     Transaction.amount := RecurringTransaction.amount recurring;
     Transaction.category := RecurringTransaction.category recurring;
     Transaction.description :=
       templateString (RecurringTransaction.description recurring) ++ " (Auto)";
     Transaction.date := nextDue;
     Transaction.recurringId := Some (RecurringTransaction.id recurring) |}.

(** The [while (true)] loop of [generateDueTransactions]; [fuel] bounds the
    number of times the body is entered, [None] means the bound was hit. *)
Fixpoint generateLoop (fuel : nat) (recurring : RecurringTransaction.t)
    (now nextDue : Z) (newTransactions : list Transaction.t)
    : option (list Transaction.t) :=
  match fuel with
  | O => None
  | S fuel' =>
    let nextDue := getNextOccurrence recurring nextDue in
    if isAfter nextDue now then Some newTransactions
    else if isBefore nextDue
              (startOfDay (RecurringTransaction.startDate recurring))
    then generateLoop fuel' recurring now nextDue newTransactions
    else if afterEndDate recurring nextDue then Some newTransactions
    else generateLoop fuel' recurring now nextDue
           (newTransactions ++ [autoTransaction recurring nextDue])
  end.

Definition checkFromDate (recurring : RecurringTransaction.t) : Z :=
  match RecurringTransaction.lastGenerated recurring with
  | Some lg => startOfDay lg
  | None => startOfDay (RecurringTransaction.startDate recurring)
  end.

Definition generateDueTransactions (fuel : nat)
    (recurring : RecurringTransaction.t) (currentDate : Z)
    : option (list Transaction.t) :=
  let now := startOfDay currentDate in
  let newTransactions : list Transaction.t := [] in
  if negb (RecurringTransaction.isActive recurring) then Some newTransactions
  else if afterEndDate recurring now then Some newTransactions
  else generateLoop fuel recurring now (checkFromDate recurring) newTransactions.

(** ** The processing pass of [FinanceTracker.tsx] *)

(** The [PATCH /api/recurring?id=...] handler applied to the stored row, for
    a body that carries only [lastGenerated]. *)
Definition patchLastGenerated
    (row : RecurringTransaction.t) (lastGenerated : Z) : RecurringTransaction.t :=
  RecurringTransaction.withLastGenerated row (Some lastGenerated).

(** What the environment answers while one schedule is processed: the two
    readings of [new Date()], the outcome of each [POST /api/transactions]
    ([None] when the request fails or is not [ok]) and the row found by the
    [PATCH] ([None] when that request fails or is not [ok]). *)
Record PassIO : Type := {
  generateClock : Z;
  postResponse : Transaction.t -> option Transaction.t;
  patchClock : Z;
  patchRow : option RecurringTransaction.t
}.

Record AppState : Type := {
  transactions : list Transaction.t;
  recurringTransactions : list RecurringTransaction.t
}.

(** The inner [for (const transaction of dueTransactions)] loop. *)
Fixpoint saveTransactions (io : PassIO) (recurring : RecurringTransaction.t)
    (dueTransactions prev : list Transaction.t) (hasNewTransactions : bool)
    : list Transaction.t * bool :=
  match dueTransactions with
  | [] => (prev, hasNewTransactions)
  | transaction :: rest =>
    match postResponse io
            (Transaction.withRecurringId transaction
               (RecurringTransaction.id recurring)) with
    | Some newTransaction =>
      saveTransactions io recurring rest (prev ++ [newTransaction]) true
    | None => saveTransactions io recurring rest prev hasNewTransactions
    end
  end.

(** The body of [for (const recurring of activeRecurring)]. *)
Definition processRecurring (fuel : nat) (io : PassIO)
    (recurring : RecurringTransaction.t) (st : AppState)
    (hasNewTransactions : bool) : option (AppState * bool) :=
  match generateDueTransactions fuel recurring (generateClock io) with
  | None => None
  | Some dueTransactions =>
    if (0 <? List.length dueTransactions)%nat then
      let (transactions', hasNew') :=
        saveTransactions io recurring dueTransactions (transactions st)
          hasNewTransactions in
      let recurring' :=
        match patchRow io with
        | Some row =>
          let updated := patchLastGenerated row (patchClock io) in
          map (fun r =>
                 if RecurringTransaction.id r =? RecurringTransaction.id recurring
                 then updated else r)
              (recurringTransactions st)
        | None => recurringTransactions st
        end in
      Some ({| transactions := transactions';
               recurringTransactions := recurring' |}, hasNew')
    else Some (st, hasNewTransactions)
  end.

Fixpoint forEachRecurring (fuel : nat) (io : RecurringTransaction.t -> PassIO)
    (activeRecurring : list RecurringTransaction.t) (st : AppState)
    (hasNewTransactions : bool) : option (AppState * bool) :=
  match activeRecurring with
  | [] => Some (st, hasNewTransactions)
  | recurring :: rest =>
    match processRecurring fuel (io recurring) recurring st
            hasNewTransactions with
    | Some (st', hasNew') => forEachRecurring fuel io rest st' hasNew'
    | None => None
    end
  end.

(** One run of the effect; the boolean tells whether the success toast is
    shown. *)
Definition processRecurringTransactions (fuel : nat)
    (io : RecurringTransaction.t -> PassIO) (isLoading : bool)
    (st : AppState) : option (AppState * bool) :=
  if isLoading || (List.length (recurringTransactions st) =? 0)%nat
  then Some (st, false)
  else
    let activeRecurring :=
      filter RecurringTransaction.isActive (recurringTransactions st) in
    if (List.length activeRecurring =? 0)%nat then Some (st, false)
    else forEachRecurring fuel io activeRecurring st false.

(** ** Calendar notions used in the statements *)

Module Calendar.

(** Length of month [month] (0 = January) of [year]. *)
Definition daysInMonth (year month : Z) : Z :=
  if month =? 1 then (if isLeap year then 29 else 28)
  else if (month =? 3) || (month =? 5) || (month =? 8) || (month =? 10)
  then 30 else 31.

(** Months counted on one axis: index [12 * y + m] is month [m] of
    year [y]. *)
Definition monthIndex (t : Z) : Z := 12 * getFullYear t + getMonth t.

Definition firstDayOfMonth (M : Z) : Z := MakeDay 0 M 1.

Definition lengthOfMonth (M : Z) : Z := daysInMonth (M / 12) (M mod 12).

(** An instant at midnight. *)
Definition dayTruncated (t : Z) : Prop := startOfDay t = t.

(** The time value of [new Date("YYYY-MM-DD")], months counted from 1. *)
Definition isoDate (year month day : Z) : Z := utc year (month - 1) day.

(** Whole periods of a frequency between the days of two instants: days,
    weeks, calendar months crossed, calendar years crossed. *)
Definition periodsElapsed (f : RecurrenceFrequency) (from to : Z) : Z :=
  match f with
  | daily => Day to - Day from
  | weekly => (Day to - Day from) / 7
  | monthly => monthIndex to - monthIndex from
  | yearly => getFullYear to - getFullYear from
  | otherFrequency => 0
  end.

End Calendar.

Import Calendar.

(** ** Notions used in the statements about the generator *)

(** What holds of a transaction pushed by the loop when the reference day
    is [now]. *)
Definition emitted (r : RecurringTransaction.t) (now : Z)
    (x : Transaction.t) : Prop :=
  x = autoTransaction r (Transaction.date x)
  /\ dayTruncated (Transaction.date x)
  /\ Transaction.date x <= now
  /\ startOfDay (RecurringTransaction.startDate r) <= Transaction.date x
  /\ afterEndDate r (Transaction.date x) = false.

(** Nothing is due after the occurrence dated [last]: the next one is after
    [now] or after the end date. *)
Definition exhausted (r : RecurringTransaction.t) (now last : Z) : Prop :=
  (isAfter (getNextOccurrence r last) now
   || afterEndDate r (getNextOccurrence r last))%bool = true.

(** ** Schedules of the concrete scenarios *)

(** Monthly from 2024-01-15, never generated, active; the remaining fields
    are those of [base]. *)
Definition monthlyFromJan15 (base : RecurringTransaction.t)
    (endDate : option Z) : RecurringTransaction.t :=
  RecurringTransaction.mk
    (RecurringTransaction.id base) (RecurringTransaction.type base)
    (RecurringTransaction.amount base) (RecurringTransaction.category base)
    (RecurringTransaction.description base)
    monthly (isoDate 2024 1 15) endDate None true.

Definition rent : RecurringTransaction.t :=
  RecurringTransaction.mk 7 expense (1200 # 1)%Q "Housing"%string
    (Some "Rent"%string) monthly (isoDate 2024 1 15) None None true.

Definition scenarioA : RecurringTransaction.t := monthlyFromJan15 rent None.

Definition scenarioB : RecurringTransaction.t :=
  monthlyFromJan15 rent (Some (isoDate 2024 3 1)).

(** Daily from 2024-01-01 until 2024-01-05. *)
Definition dailyUntilJan5 : RecurringTransaction.t :=
  RecurringTransaction.mk 3 income (25 # 2)%Q "Interest"%string None daily
    (isoDate 2024 1 1) (Some (isoDate 2024 1 5)) None true.

(** A pass on 2024-04-10 at 09:30:00.000; the checkpoint request follows a
    quarter of a second later. *)
Definition passApr10 : PassIO :=
  {| generateClock := isoDate 2024 4 10 + 34200000;
     postResponse := fun body => Some body;
     patchClock := isoDate 2024 4 10 + 34200250;
     patchRow := Some scenarioA |}.

Definition stateA : AppState :=
  {| transactions := []; recurringTransactions := [scenarioA] |}.

(** ** Further notions about the generator *)

(** The next [n] occurrences after [anchor]. *)
Fixpoint occurrences (r : RecurringTransaction.t) (anchor : Z) (n : nat)
    {struct n} : list Z :=
  match n with
  | O => []
  | S n' =>
    getNextOccurrence r anchor
    :: occurrences r (getNextOccurrence r anchor) n'
  end.

(** Each date of the list is the next occurrence after the one before. *)
Fixpoint successive (r : RecurringTransaction.t) (dates : list Z) : Prop :=
  match dates with
  | a :: (b :: _) as rest => b = getNextOccurrence r a /\ successive r rest
  | _ => True
  end.

Definition withEndDate (r : RecurringTransaction.t) (e : option Z)
    : RecurringTransaction.t :=
  RecurringTransaction.mk
    (RecurringTransaction.id r) (RecurringTransaction.type r)
    (RecurringTransaction.amount r) (RecurringTransaction.category r)
    (RecurringTransaction.description r) (RecurringTransaction.frequency r)
    (RecurringTransaction.startDate r) e
    (RecurringTransaction.lastGenerated r) (RecurringTransaction.isActive r).

(** ** The [PATCH] handler of [/api/recurring]

    The two body fields are given as the handler classifies them:
    [isActive] by the tests [=== undefined], [typeof ... === 'boolean'] and
    the comparisons with [0], [1], ['0'], ['1']; [lastGenerated] by
    [=== undefined], [=== null] and the time value of [new Date(...)]
    ([None] for NaN). *)

Inductive IsActiveField : Set :=
| IsActiveUndefined
| IsActiveBoolean (b : bool)
| IsActiveZeroOne (one : bool)
| IsActiveOther.

Inductive LastGeneratedField : Set :=
| LastGeneratedUndefined
| LastGeneratedNull
| LastGeneratedValue (timeValue : option Z).

Record PatchBody : Set := {
  bodyIsActive : IsActiveField;
  bodyLastGenerated : LastGeneratedField
}.

Inductive PatchResponse : Type :=
| PatchOk (row : RecurringTransaction.t)
| PatchBadRequest (code : string).

(** The columns collected in [updates]; [None] when the key is not set. *)
Record PatchUpdates : Set := {
  updateIsActive : option bool;
  updateLastGenerated : option (option Z)
}.

Definition applyUpdates (row : RecurringTransaction.t) (u : PatchUpdates)
    : RecurringTransaction.t :=
  RecurringTransaction.mk
    (RecurringTransaction.id row) (RecurringTransaction.type row)
    (RecurringTransaction.amount row) (RecurringTransaction.category row)
    (RecurringTransaction.description row) (RecurringTransaction.frequency row)
    (RecurringTransaction.startDate row) (RecurringTransaction.endDate row)
    (match updateLastGenerated u with
     | Some lg => lg
     | None => RecurringTransaction.lastGenerated row
     end)
    (match updateIsActive u with
     | Some b => b
     | None => RecurringTransaction.isActive row
     end).

(** The handler once the row with the requested id has been found. *)
Definition patchRecurring (existingRecord : RecurringTransaction.t)
    (body : PatchBody) : PatchResponse :=
  match
    match bodyIsActive body with
    | IsActiveUndefined => inl None
    | IsActiveBoolean b => inl (Some b)
    | IsActiveZeroOne one => inl (Some one)
    | IsActiveOther => inr "INVALID_IS_ACTIVE"%string
    end
  with
  | inr code => PatchBadRequest code
  | inl isActive' =>
    match
      match bodyLastGenerated body with
      | LastGeneratedUndefined => inl None
      | LastGeneratedNull => inl (Some None)
      | LastGeneratedValue (Some parsedDate) => inl (Some (Some parsedDate))
      | LastGeneratedValue None => inr "INVALID_LAST_GENERATED"%string
      end
    with
    | inr code => PatchBadRequest code
    | inl lastGenerated' =>
      match isActive', lastGenerated' with
      | None, None => PatchOk existingRecord
      | _, _ =>
        PatchOk (applyUpdates existingRecord
                   {| updateIsActive := isActive';
                      updateLastGenerated := lastGenerated' |})
      end
    end
  end.

(** ** The [POST] handler of [/api/recurring]

    The body fields are given as the handler classifies them: by
    truthiness, by membership in [VALID_TYPES] and [VALID_FREQUENCIES], by
    the value of [parseFloat] (a finite number, or [None] for NaN), by the
    result of [trim()] (which throws on a value that is not a string) and
    by the time value of [new Date(...)] ([None] for NaN). *)

Inductive TypeField : Set :=
| TypeFalsy
| TypeValid (t : TransactionType)
| TypeOther.

Inductive AmountField : Set :=
| AmountMissing
| AmountParsed (parsedAmount : option Q).

Inductive TextField : Set :=
| TextFalsy
| TextString (trimmed : string)
| TextNotString.

Inductive FrequencyField : Set :=
| FrequencyFalsy
| FrequencyValue (f : RecurrenceFrequency).

Inductive DateField : Set :=
| DateFalsy
| DateValue (timeValue : option Z).

Record PostBody : Set := {
  postType : TypeField;
  postAmount : AmountField;
  postCategory : TextField;
  postDescription : TextField;
  postFrequency : FrequencyField;
  postStartDate : DateField;
  postEndDate : DateField;
  postIsActive : IsActiveField
}.

Inductive PostResponse : Type :=
| PostCreated (row : RecurringTransaction.t)
| PostBadRequest (code : string)
| PostServerError.

(** [newId] is the key the table assigns to the inserted row. *)
Definition postRecurring (body : PostBody) (newId : Z) : PostResponse :=
  match postType body with
  | TypeFalsy => PostBadRequest "MISSING_TYPE"
  | type =>
  match postAmount body with
  | AmountMissing => PostBadRequest "MISSING_AMOUNT"
  | AmountParsed parsed =>
  match postCategory body with
  | TextFalsy => PostBadRequest "MISSING_CATEGORY"
  | category =>
  match postFrequency body with
  | FrequencyFalsy => PostBadRequest "MISSING_FREQUENCY"
  | FrequencyValue frequency =>
  match postStartDate body with
  | DateFalsy => PostBadRequest "MISSING_START_DATE"
  | DateValue parsedStart =>
  match type with
  | TypeFalsy | TypeOther => PostBadRequest "INVALID_TYPE"
  | TypeValid type =>
  match parsed with
  | None => PostBadRequest "INVALID_AMOUNT"
  | Some parsedAmount =>
  if Qle_bool parsedAmount 0 then PostBadRequest "INVALID_AMOUNT" else
  match category with
  | TextFalsy | TextNotString => PostServerError
  | TextString trimmedCategory =>
  if (String.length trimmedCategory =? 0)%nat
  then PostBadRequest "EMPTY_CATEGORY" else
  if negb (validFrequency frequency)
  then PostBadRequest "INVALID_FREQUENCY" else
  match parsedStart with
  | None => PostBadRequest "INVALID_START_DATE"
  | Some parsedStartDate =>
  match
    match postEndDate body with
    | DateFalsy => inl None
    | DateValue None => inr "INVALID_END_DATE"%string
    | DateValue (Some parsedEndDate) =>
      if parsedEndDate <=? parsedStartDate
      then inr "END_DATE_BEFORE_START"%string
      else inl (Some parsedEndDate)
    end
  with
  | inr code => PostBadRequest code
  | inl parsedEndDate =>
  match postDescription body with
  | TextNotString => PostServerError
  | description =>
    PostCreated
      (RecurringTransaction.mk newId type parsedAmount trimmedCategory
         (match description with
          | TextString trimmed => Some trimmed
          | _ => None
          end)
         frequency parsedStartDate parsedEndDate None
         (match postIsActive body with
          | IsActiveUndefined => true
          | IsActiveBoolean b => b
          | IsActiveZeroOne one => one
          | IsActiveOther => false
          end))
  end end end end end end end end end end end.

(** ** The handlers of [FinanceTrackerContent] that edit the lists *)

(** The handlers declare their argument a string; the values that reach
    them at run time are strings or numbers. *)
Inductive IdArgument : Set :=
| IdString (s : string)
| IdNumber (n : Z).

(** [Number.prototype.toString()] of an integer. *)
Definition numberToString (n : Z) : string :=
  NilZero.string_of_int (Z.to_int n).

(** [n.toString() === id] *)
Definition idMatches (n : Z) (id : IdArgument) : bool :=
  match id with
  | IdString s => String.eqb (numberToString n) s
  | IdNumber _ => false
  end.

(** [t.recurringId?.toString() !== id] *)
Definition recurringIdDiffers (x : Transaction.t) (id : IdArgument) : bool :=
  match Transaction.recurringId x with
  | Some n => negb (idMatches n id)
  | None => true
  end.

(** [handleDeleteRecurring]; [responseOk] is false when the request fails
    or its response is not [ok]. *)
Definition handleDeleteRecurring (id : IdArgument) (responseOk : bool)
    (st : AppState) : AppState :=
  if responseOk then
    {| transactions :=
         filter (fun x => recurringIdDiffers x id) (transactions st);
       recurringTransactions :=
         filter (fun r => negb (idMatches (RecurringTransaction.id r) id))
           (recurringTransactions st) |}
  else st.

(** [handleToggleActive]; [serverRow] is the row the [PATCH] finds, [None]
    when the request fails or the row does not exist. *)
Definition handleToggleActive (id : IdArgument)
    (serverRow : option RecurringTransaction.t) (st : AppState) : AppState :=
  match find (fun r => idMatches (RecurringTransaction.id r) id)
          (recurringTransactions st) with
  | None => st
  | Some recurring =>
    match serverRow with
    | None => st
    | Some row =>
      match patchRecurring row
              {| bodyIsActive :=
                   IsActiveBoolean (negb (RecurringTransaction.isActive recurring));
                 bodyLastGenerated := LastGeneratedUndefined |} with
      | PatchOk updated =>
        {| transactions := transactions st;
           recurringTransactions :=
             map (fun r =>
                    if idMatches (RecurringTransaction.id r) id
                    then updated else r)
                 (recurringTransactions st) |}
      | PatchBadRequest _ => st
      end
    end
  end.

(** [Budget]; the amount of the limit is only copied. *)
Module Budget.
Record t : Type := mk {
  category : string;
  limit : Q
}.
End Budget.

(** The state update of [handleAddBudget] for the budget that was saved. *)
Definition handleAddBudget (savedBudget : Budget.t) (prev : list Budget.t)
    : list Budget.t :=
  match find (fun b => String.eqb (Budget.category b)
                         (Budget.category savedBudget)) prev with
  | Some existing =>
    map (fun b => if String.eqb (Budget.category b)
                       (Budget.category savedBudget)
                  then savedBudget else b) prev
  | None => prev ++ [savedBudget]
  end.

(** The state update of [handleDeleteBudget]. *)
Definition handleDeleteBudget (category : string) (prev : list Budget.t)
    : list Budget.t :=
  filter (fun b => negb (String.eqb (Budget.category b) category)) prev.

(** * Calendar facts *)

Module EcmaFacts.

Ltac bool_to_Z :=
  repeat match goal with
  | H : (_ && _)%bool = true |- _ => apply andb_true_iff in H; destruct H
  | H : (_ && _)%bool = false |- _ => apply andb_false_iff in H; destruct H
  | H : (_ || _)%bool = true |- _ => apply orb_true_iff in H; destruct H
  | H : (_ || _)%bool = false |- _ => apply orb_false_iff in H; destruct H
  | H : negb _ = true |- _ => apply negb_true_iff in H
  | H : negb _ = false |- _ => apply negb_false_iff in H
  | H : (_ =? _) = true |- _ => apply Z.eqb_eq in H
  | H : (_ =? _) = false |- _ => apply Z.eqb_neq in H
  | H : (_ <? _) = true |- _ => apply Z.ltb_lt in H
  | H : (_ <? _) = false |- _ => apply Z.ltb_ge in H
  | H : (_ <=? _) = true |- _ => apply Z.leb_le in H
  | H : (_ <=? _) = false |- _ => apply Z.leb_gt in H
  | H : (_ >? _) = true |- _ => rewrite Z.gtb_ltb in H
  | H : (_ >? _) = false |- _ => rewrite Z.gtb_ltb in H
  | H : (_ >=? _) = true |- _ => rewrite Z.geb_leb in H
  | H : (_ >=? _) = false |- _ => rewrite Z.geb_leb in H
  end.

Lemma DayFromYear_succ y :
  DayFromYear (y + 1) = DayFromYear y + DaysInYear y.
Proof.
  unfold DayFromYear, DaysInYear, isLeap.
  destruct ((y mod 4 =? 0) && (negb (y mod 100 =? 0) || (y mod 400 =? 0)))%bool eqn:E;
    bool_to_Z; Z.to_euclidean_division_equations; lia.
Qed.

Lemma DaysInYear_bounds y : 365 <= DaysInYear y <= 366.
Proof. unfold DaysInYear; destruct (isLeap y); lia. Qed.

Lemma DayFromYear_lt y y' : y < y' -> DayFromYear y + 365 <= DayFromYear y'.
Proof.
  intros H. unfold DayFromYear. Z.to_euclidean_division_equations. lia.
Qed.

Lemma YearFromDay_spec d :
  DayFromYear (YearFromDay d) <= d < DayFromYear (YearFromDay d + 1).
Proof.
  unfold YearFromDay.
  set (y0 := 1970 + d * 400 / 146097).
  assert (Hlo : DayFromYear (y0 - 1) <= d).
  { unfold DayFromYear, y0. Z.to_euclidean_division_equations. lia. }
  assert (Hhi : d < DayFromYear (y0 + 2)).
  { unfold DayFromYear, y0. Z.to_euclidean_division_equations. lia. }
  destruct (d <? DayFromYear y0) eqn:E1; bool_to_Z.
  - replace (y0 - 1 + 1) with y0 by lia. lia.
  - destruct (DayFromYear (y0 + 1) <=? d) eqn:E2; bool_to_Z.
    + replace (y0 + 1 + 1) with (y0 + 2) by lia. lia.
    + lia.
Qed.

Lemma DayFromYear_le y y' : y <= y' -> DayFromYear y <= DayFromYear y'.
Proof.
  intros H. destruct (Z.eq_dec y y') as [->|Hne]; [lia|].
  pose proof (DayFromYear_lt y y'). lia.
Qed.

Lemma YearFromDay_unique d y :
  DayFromYear y <= d < DayFromYear (y + 1) -> YearFromDay d = y.
Proof.
  intros [Hlo Hhi]. pose proof (YearFromDay_spec d) as [Slo Shi].
  destruct (Z.lt_trichotomy (YearFromDay d) y) as [Hlt|[Heq|Hgt]]; [|exact Heq|].
  - pose proof (DayFromYear_le (YearFromDay d + 1) y). lia.
  - pose proof (DayFromYear_le (y + 1) (YearFromDay d)). lia.
Qed.

Lemma DayWithinYear_bounds d :
  0 <= DayWithinYear d < 365 + leapDay (isLeap (YearFromDay d)).
Proof.
  unfold DayWithinYear. pose proof (YearFromDay_spec d) as [Slo Shi].
  rewrite DayFromYear_succ in Shi. unfold DaysInYear, leapDay in *.
  destruct (isLeap (YearFromDay d)); lia.
Qed.

Ltac split_ifs :=
  repeat match goal with
  | |- context [if ?b then _ else _] => destruct b eqn:?
  end.

Lemma month_cases m :
  0 <= m <= 11 ->
  m = 0 \/ m = 1 \/ m = 2 \/ m = 3 \/ m = 4 \/ m = 5 \/ m = 6 \/ m = 7 \/
  m = 8 \/ m = 9 \/ m = 10 \/ m = 11.
Proof. lia. Qed.

Ltac each_month H :=
  apply month_cases in H;
  repeat (destruct H as [H|H]; [subst|]); [..|subst].

Lemma monthOfDayWithinYear_range leap dwy :
  0 <= monthOfDayWithinYear leap dwy <= 11.
Proof. unfold monthOfDayWithinYear. split_ifs; lia. Qed.

Lemma monthOfDayWithinYear_spec leap dwy :
  0 <= dwy < 365 + leapDay leap ->
  daysBeforeMonth leap (monthOfDayWithinYear leap dwy) <= dwy
    < daysBeforeMonth leap (monthOfDayWithinYear leap dwy + 1).
Proof.
  intros H. unfold monthOfDayWithinYear.
  destruct leap; cbn [leapDay] in *; split_ifs; bool_to_Z;
    cbn; lia.
Qed.

Lemma monthOfDayWithinYear_unique leap dwy m :
  0 <= m <= 11 ->
  daysBeforeMonth leap m <= dwy < daysBeforeMonth leap (m + 1) ->
  monthOfDayWithinYear leap dwy = m.
Proof.
  intros Hm. unfold monthOfDayWithinYear.
  destruct leap; each_month Hm; cbn; intros H; split_ifs; bool_to_Z; lia.
Qed.

(** Length of month [m] (0 = January) of a leap or common year. *)
Lemma daysBeforeMonth_step leap m :
  0 <= m <= 11 ->
  28 <= daysBeforeMonth leap (m + 1) - daysBeforeMonth leap m <= 31.
Proof. intros Hm. destruct leap; each_month Hm; cbn; lia. Qed.


Lemma daysBeforeMonth_succ leap m :
  0 <= m <= 11 ->
  daysBeforeMonth leap (m + 1) =
  daysBeforeMonth leap m
  + (if m =? 1 then (if leap then 29 else 28)
     else if (m =? 3) || (m =? 5) || (m =? 8) || (m =? 10) then 30 else 31).
Proof. intros Hm. destruct leap; each_month Hm; cbn; lia. Qed.

Lemma firstDayOfMonth_eq M :
  firstDayOfMonth M =
  DayFromYear (M / 12) + daysBeforeMonth (isLeap (M / 12)) (M mod 12).
Proof. unfold firstDayOfMonth, MakeDay. rewrite Z.add_0_l. lia. Qed.

Lemma MakeDay_firstDay y m dt :
  MakeDay y m dt = firstDayOfMonth (12 * y + m) + dt - 1.
Proof.
  rewrite firstDayOfMonth_eq. unfold MakeDay.
  replace ((12 * y + m) / 12) with (y + m / 12)
    by (Z.to_euclidean_division_equations; lia).
  replace ((12 * y + m) mod 12) with (m mod 12)
    by (Z.to_euclidean_division_equations; lia).
  lia.
Qed.

Lemma firstDayOfMonth_succ M :
  firstDayOfMonth (M + 1) = firstDayOfMonth M + lengthOfMonth M.
Proof.
  rewrite !firstDayOfMonth_eq. unfold lengthOfMonth, daysInMonth.
  assert (Hm : 0 <= M mod 12 <= 11) by (pose proof (Z.mod_pos_bound M 12); lia).
  destruct (Z.eq_dec (M mod 12) 11) as [E|E].
  - replace ((M + 1) / 12) with (M / 12 + 1)
      by (Z.to_euclidean_division_equations; lia).
    replace ((M + 1) mod 12) with 0
      by (Z.to_euclidean_division_equations; lia).
    rewrite DayFromYear_succ, E. unfold DaysInYear.
    destruct (isLeap (M / 12)); cbn; lia.
  - replace ((M + 1) / 12) with (M / 12)
      by (Z.to_euclidean_division_equations; lia).
    replace ((M + 1) mod 12) with (M mod 12 + 1)
      by (Z.to_euclidean_division_equations; lia).
    rewrite (daysBeforeMonth_succ _ _ Hm). lia.
Qed.

Lemma lengthOfMonth_bounds M : 28 <= lengthOfMonth M <= 31.
Proof.
  unfold lengthOfMonth, daysInMonth.
  destruct (isLeap (M / 12)); split_ifs; lia.
Qed.

Lemma firstDayOfMonth_add M k :
  0 <= k -> firstDayOfMonth M + 28 * k <= firstDayOfMonth (M + k).
Proof.
  intros Hk. revert k Hk.
  apply (natlike_ind (fun k => firstDayOfMonth M + 28 * k
                               <= firstDayOfMonth (M + k))).
  - replace (M + 0) with M by lia. lia.
  - intros k Hk IH. replace (M + Z.succ k) with (M + k + 1) by lia.
    rewrite firstDayOfMonth_succ. pose proof (lengthOfMonth_bounds (M + k)).
    lia.
Qed.

Lemma firstDayOfMonth_lt M M' :
  M < M' -> firstDayOfMonth M + 28 <= firstDayOfMonth M'.
Proof.
  intros H. pose proof (firstDayOfMonth_add M (M' - M)).
  replace (M + (M' - M)) with M' in * by lia. lia.
Qed.

Lemma firstDayOfMonth_le M M' :
  M <= M' -> firstDayOfMonth M <= firstDayOfMonth M'.
Proof.
  intros H. pose proof (firstDayOfMonth_add M (M' - M)).
  replace (M + (M' - M)) with M' in * by lia. lia.
Qed.

(** Every day lies in the month given by its calendar fields. *)
Lemma monthIndex_spec t :
  firstDayOfMonth (monthIndex t) <= Day t
    < firstDayOfMonth (monthIndex t + 1).
Proof.
  rewrite firstDayOfMonth_succ, firstDayOfMonth_eq.
  unfold lengthOfMonth, monthIndex, getFullYear, getMonth.
  pose proof (monthOfDayWithinYear_range (InLeapYear t) (DayWithinYear (Day t))) as Hr.
  fold (MonthFromTime t) in Hr.
  replace ((12 * YearFromTime t + MonthFromTime t) / 12) with (YearFromTime t)
    by (Z.to_euclidean_division_equations; lia).
  replace ((12 * YearFromTime t + MonthFromTime t) mod 12) with (MonthFromTime t)
    by (Z.to_euclidean_division_equations; lia).
  pose proof (DayWithinYear_bounds (Day t)) as Hb.
  pose proof (monthOfDayWithinYear_spec (isLeap (YearFromDay (Day t))) _ Hb) as Hs.
  fold (YearFromTime t) in Hs. fold (InLeapYear t) in Hs.
  fold (MonthFromTime t) in Hs.
  rewrite (daysBeforeMonth_succ _ _ Hr) in Hs.
  unfold daysInMonth. fold (InLeapYear t).
  unfold DayWithinYear in Hs. fold (YearFromTime t) in Hs. lia.
Qed.

Lemma monthIndex_unique t M :
  firstDayOfMonth M <= Day t < firstDayOfMonth (M + 1) -> monthIndex t = M.
Proof.
  intros [Hlo Hhi]. pose proof (monthIndex_spec t) as [Slo Shi].
  destruct (Z.lt_trichotomy (monthIndex t) M) as [Hlt|[Heq|Hgt]]; [|exact Heq|].
  - pose proof (firstDayOfMonth_le (monthIndex t + 1) M). lia.
  - pose proof (firstDayOfMonth_le (M + 1) (monthIndex t)). lia.
Qed.

Lemma getMonth_range t : 0 <= getMonth t <= 11.
Proof. apply monthOfDayWithinYear_range. Qed.

Lemma getDate_eq t : getDate t = Day t - firstDayOfMonth (monthIndex t) + 1.
Proof.
  rewrite firstDayOfMonth_eq. pose proof (getMonth_range t) as Hr.
  unfold monthIndex.
  replace ((12 * getFullYear t + getMonth t) / 12) with (getFullYear t)
    by (Z.to_euclidean_division_equations; lia).
  replace ((12 * getFullYear t + getMonth t) mod 12) with (getMonth t)
    by (Z.to_euclidean_division_equations; lia).
  unfold getDate, DateFromTime, DayWithinYear, getFullYear, getMonth,
    InLeapYear, YearFromTime. lia.
Qed.

Lemma getDate_range t : 1 <= getDate t <= lengthOfMonth (monthIndex t).
Proof.
  rewrite getDate_eq. pose proof (monthIndex_spec t) as H.
  rewrite firstDayOfMonth_succ in H. lia.
Qed.

Lemma monthIndex_mono t t' : Day t <= Day t' -> monthIndex t <= monthIndex t'.
Proof.
  intros H. pose proof (monthIndex_spec t). pose proof (monthIndex_spec t').
  destruct (Z_le_gt_dec (monthIndex t) (monthIndex t')) as [|Hgt]; [assumption|].
  pose proof (firstDayOfMonth_le (monthIndex t' + 1) (monthIndex t)). lia.
Qed.

Lemma getFullYear_monthIndex t : getFullYear t = monthIndex t / 12.
Proof.
  pose proof (getMonth_range t). unfold monthIndex.
  Z.to_euclidean_division_equations; lia.
Qed.

Lemma getMonth_monthIndex t : getMonth t = monthIndex t mod 12.
Proof.
  pose proof (getMonth_range t). unfold monthIndex.
  Z.to_euclidean_division_equations; lia.
Qed.

End EcmaFacts.

Module DateFnsFacts.
Import EcmaFacts.

Lemma msPerDay_pos : 0 < msPerDay.
Proof. reflexivity. Qed.

Lemma Day_MakeDate d tm :
  0 <= tm < msPerDay -> Day (MakeDate d tm) = d.
Proof.
  intros H. unfold Day, MakeDate.
  rewrite Z.add_comm, Z.div_add by (unfold msPerDay; lia).
  rewrite Z.div_small by assumption. lia.
Qed.

Lemma TimeWithinDay_MakeDate d tm :
  0 <= tm < msPerDay -> TimeWithinDay (MakeDate d tm) = tm.
Proof.
  intros H. unfold TimeWithinDay, MakeDate.
  rewrite Z.add_comm, Z.mod_add by (unfold msPerDay; lia).
  apply Z.mod_small; assumption.
Qed.

Lemma TimeWithinDay_range t : 0 <= TimeWithinDay t < msPerDay.
Proof. apply Z.mod_pos_bound, msPerDay_pos. Qed.

Lemma time_decompose t : t = MakeDate (Day t) (TimeWithinDay t).
Proof.
  unfold MakeDate, Day, TimeWithinDay.
  pose proof (Z.div_mod t msPerDay). unfold msPerDay in *. lia.
Qed.

Lemma MakeDate_lt d d' tm tm' :
  0 <= tm < msPerDay -> 0 <= tm' < msPerDay ->
  d < d' -> MakeDate d tm < MakeDate d' tm'.
Proof. unfold MakeDate, msPerDay. nia. Qed.

Lemma Day_mono t t' : t <= t' -> Day t <= Day t'.
Proof. intros H. apply Z.div_le_mono; [apply msPerDay_pos|assumption]. Qed.

Lemma startOfDay_eq t : startOfDay t = t - TimeWithinDay t.
Proof.
  unfold startOfDay, setHours0. rewrite (time_decompose t) at 2.
  unfold MakeDate. lia.
Qed.

Lemma startOfDay_bounds t : startOfDay t <= t < startOfDay t + msPerDay.
Proof. rewrite startOfDay_eq. pose proof (TimeWithinDay_range t). lia. Qed.

Lemma Day_startOfDay t : Day (startOfDay t) = Day t.
Proof.
  unfold startOfDay, setHours0. apply Day_MakeDate.
  pose proof msPerDay_pos. lia.
Qed.

Lemma TimeWithinDay_startOfDay t : TimeWithinDay (startOfDay t) = 0.
Proof.
  unfold startOfDay, setHours0. apply TimeWithinDay_MakeDate.
  pose proof msPerDay_pos. lia.
Qed.

Lemma startOfDay_idem t : startOfDay (startOfDay t) = startOfDay t.
Proof.
  rewrite (startOfDay_eq (startOfDay t)), TimeWithinDay_startOfDay. lia.
Qed.

Lemma startOfDay_mono t t' : t <= t' -> startOfDay t <= startOfDay t'.
Proof.
  intros H. unfold startOfDay, setHours0, MakeDate.
  pose proof (Day_mono _ _ H). pose proof msPerDay_pos. nia.
Qed.

Lemma dayTruncated_iff t : dayTruncated t <-> TimeWithinDay t = 0.
Proof.
  unfold dayTruncated. rewrite startOfDay_eq. lia.
Qed.

Lemma dayTruncated_startOfDay t : dayTruncated (startOfDay t).
Proof. apply startOfDay_idem. Qed.

(** A day-truncated instant that is not after [t] is not after the start
    of [t]'s day. *)
Lemma dayTruncated_le_startOfDay d t :
  dayTruncated d -> d <= t -> d <= startOfDay t.
Proof.
  intros Hd H. rewrite <- Hd. apply startOfDay_mono, H.
Qed.

Lemma setDate_eq t dt : setDate t dt = t + (dt - getDate t) * msPerDay.
Proof.
  unfold setDate. rewrite MakeDay_firstDay. fold (getFullYear t) (getMonth t).
  fold (monthIndex t). rewrite getDate_eq.
  pose proof (time_decompose t) as Ht. unfold MakeDate, msPerDay in *. lia.
Qed.

Lemma addDays_eq t n : addDays t n = t + n * msPerDay.
Proof.
  unfold addDays. destruct (n =? 0) eqn:E; bool_to_Z; [subst; lia|].
  rewrite setDate_eq. f_equal. f_equal. lia.
Qed.

Lemma addWeeks_eq t n : addWeeks t n = t + n * (7 * msPerDay).
Proof. unfold addWeeks. rewrite addDays_eq. lia. Qed.

(** The last day of the month [n] months after the month of [t]. *)
Lemma endOfDesiredMonth_spec t n :
  let e := setMonth t (getMonth t + n + 1) 0 in
  Day e = firstDayOfMonth (monthIndex t + n)
          + lengthOfMonth (monthIndex t + n) - 1
  /\ TimeWithinDay e = TimeWithinDay t
  /\ monthIndex e = monthIndex t + n
  /\ getDate e = lengthOfMonth (monthIndex t + n).
Proof.
  intros e. pose proof (TimeWithinDay_range t) as Ht.
  assert (HD : Day e = firstDayOfMonth (monthIndex t + n)
                       + lengthOfMonth (monthIndex t + n) - 1).
  { unfold e, setMonth. rewrite (Day_MakeDate _ _ Ht), MakeDay_firstDay.
    fold (getFullYear t).
    replace (12 * getFullYear t + (getMonth t + n + 1))
      with (monthIndex t + n + 1) by (unfold monthIndex; lia).
    rewrite firstDayOfMonth_succ. lia. }
  assert (HM : monthIndex e = monthIndex t + n).
  { apply monthIndex_unique. rewrite firstDayOfMonth_succ, HD.
    pose proof (lengthOfMonth_bounds (monthIndex t + n)). lia. }
  repeat split; try assumption.
  - unfold e, setMonth. apply TimeWithinDay_MakeDate, Ht.
  - rewrite getDate_eq, HM, HD. lia.
Qed.

Lemma addMonths_spec t n :
  n <> 0 ->
  Day (addMonths t n) =
    firstDayOfMonth (monthIndex t + n)
    + Z.min (getDate t) (lengthOfMonth (monthIndex t + n)) - 1
  /\ TimeWithinDay (addMonths t n) = TimeWithinDay t.
Proof.
  intros Hn. unfold addMonths.
  destruct (n =? 0) eqn:E; bool_to_Z; [contradiction|].
  pose proof (endOfDesiredMonth_spec t n) as He. cbv zeta in He.
  remember (setMonth t (getMonth t + n + 1) 0) as e eqn:Ee. clear Ee.
  destruct He as (HD & HT & HM & Hdt).
  pose proof (TimeWithinDay_range t) as Ht.
  destruct (getDate t >=? getDate e) eqn:G; bool_to_Z.
  - rewrite HD, HT, Hdt in *. split; [lia|reflexivity].
  - unfold setFullYear.
    rewrite (Day_MakeDate _ _ Ht), (TimeWithinDay_MakeDate _ _ Ht).
    rewrite MakeDay_firstDay.
    replace (12 * getFullYear e + getMonth e) with (monthIndex e)
      by reflexivity.
    rewrite HM, Hdt in *.
    split; [lia|reflexivity].
Qed.

Lemma monthIndex_addMonths t n : monthIndex (addMonths t n) = monthIndex t + n.
Proof.
  destruct (Z.eq_dec n 0) as [->|Hn].
  - unfold addMonths. cbn. lia.
  - apply monthIndex_unique. destruct (addMonths_spec t n Hn) as [HD _].
    rewrite HD, firstDayOfMonth_succ.
    pose proof (getDate_range t).
    pose proof (lengthOfMonth_bounds (monthIndex t + n)). lia.
Qed.

Lemma getDate_addMonths t n :
  n <> 0 ->
  getDate (addMonths t n)
  = Z.min (getDate t) (lengthOfMonth (monthIndex t + n)).
Proof.
  intros Hn. rewrite getDate_eq, monthIndex_addMonths.
  destruct (addMonths_spec t n Hn) as [HD _]. lia.
Qed.

Lemma dayTruncated_addMonths t n :
  dayTruncated t -> dayTruncated (addMonths t n).
Proof.
  rewrite !dayTruncated_iff. intros H.
  destruct (Z.eq_dec n 0) as [->|Hn]; [exact H|].
  destruct (addMonths_spec t n Hn) as [_ HT]. congruence.
Qed.

(** Adding a positive number of months moves forward by at least [28 * n]
    days. *)
Lemma addMonths_advance t n :
  0 < n -> t + 28 * msPerDay <= addMonths t n.
Proof.
  intros Hn. destruct (addMonths_spec t n) as [HD HT]; [lia|].
  assert (HDay : Day t + 28 <= Day (addMonths t n)).
  { rewrite HD. pose proof (getDate_eq t) as Hg.
    pose proof (getDate_range t) as Hr.
    pose proof (firstDayOfMonth_add (monthIndex t + 1) (n - 1)) as Ha.
    replace (monthIndex t + 1 + (n - 1)) with (monthIndex t + n) in Ha by lia.
    rewrite firstDayOfMonth_succ in Ha.
    pose proof (lengthOfMonth_bounds (monthIndex t + n)).
    pose proof (lengthOfMonth_bounds (monthIndex t)).
    destruct (Z.eq_dec n 1) as [->|]; lia. }
  rewrite (time_decompose t) at 1. rewrite (time_decompose (addMonths t n)).
  rewrite HT. unfold MakeDate. pose proof msPerDay_pos. nia.
Qed.

End DateFnsFacts.

(** * Facts about the generator *)

Module GeneratorFacts.
Import EcmaFacts DateFnsFacts.

Lemma monthIndex_Day t t' : Day t = Day t' -> monthIndex t = monthIndex t'.
Proof.
  intros H.
  unfold monthIndex, getFullYear, getMonth, MonthFromTime, InLeapYear,
    YearFromTime.
  rewrite H. reflexivity.
Qed.

Lemma Day_add_days t n : Day (t + n * msPerDay) = Day t + n.
Proof. unfold Day. apply Z.div_add. unfold msPerDay. lia. Qed.

Lemma dayTruncated_add_days t n :
  dayTruncated t -> dayTruncated (t + n * msPerDay).
Proof.
  rewrite !dayTruncated_iff. unfold TimeWithinDay. intros H.
  rewrite Z.mod_add by (unfold msPerDay; lia). exact H.
Qed.

Lemma startOfDay_offset d ms :
  dayTruncated d -> 0 <= ms < msPerDay -> startOfDay (d + ms) = d.
Proof.
  intros Hd Hms. apply dayTruncated_iff in Hd.
  pose proof (time_decompose d) as Hdec. rewrite Hd in Hdec.
  unfold MakeDate in Hdec. rewrite Z.add_0_r in Hdec.
  unfold startOfDay, setHours0, MakeDate.
  replace (Day (d + ms)) with (Day d); [lia|].
  rewrite Hdec at 2. unfold Day at 2.
  rewrite Z.add_comm, Z.div_add by (unfold msPerDay; lia).
  rewrite Z.div_small by assumption. reflexivity.
Qed.

Lemma getNextOccurrence_dayTruncated r d :
  dayTruncated (getNextOccurrence r d).
Proof.
  unfold getNextOccurrence, addYears.
  pose proof (dayTruncated_startOfDay d) as Hs.
  destruct (RecurringTransaction.frequency r).
  - rewrite addDays_eq. apply dayTruncated_add_days, Hs.
  - rewrite addWeeks_eq.
    replace (1 * (7 * msPerDay)) with (7 * msPerDay) by lia.
    apply dayTruncated_add_days, Hs.
  - apply dayTruncated_addMonths, Hs.
  - apply dayTruncated_addMonths, Hs.
  - exact Hs.
Qed.

Lemma getNextOccurrence_ge r d : startOfDay d <= getNextOccurrence r d.
Proof.
  unfold getNextOccurrence, addYears. pose proof msPerDay_pos.
  destruct (RecurringTransaction.frequency r).
  - rewrite addDays_eq. lia.
  - rewrite addWeeks_eq. lia.
  - pose proof (addMonths_advance (startOfDay d) 1). lia.
  - pose proof (addMonths_advance (startOfDay d) (1 * 12)). lia.
  - lia.
Qed.

(** For the four frequencies the next occurrence lies at least one day
    after the start of the day it is computed from. *)
Lemma getNextOccurrence_advance r d :
  validFrequency (RecurringTransaction.frequency r) = true ->
  startOfDay d + msPerDay <= getNextOccurrence r d.
Proof.
  unfold getNextOccurrence, addYears. pose proof msPerDay_pos.
  destruct (RecurringTransaction.frequency r); intros Hv.
  - rewrite addDays_eq. lia.
  - rewrite addWeeks_eq. lia.
  - pose proof (addMonths_advance (startOfDay d) 1). lia.
  - pose proof (addMonths_advance (startOfDay d) (1 * 12)). lia.
  - discriminate.
Qed.

Lemma getNextOccurrence_gt r d :
  validFrequency (RecurringTransaction.frequency r) = true ->
  d < getNextOccurrence r d.
Proof.
  intros Hv. pose proof (getNextOccurrence_advance r d Hv).
  pose proof (startOfDay_bounds d). lia.
Qed.

Lemma getFullYear_mono t t' : Day t <= Day t' -> getFullYear t <= getFullYear t'.
Proof.
  intros H. rewrite !getFullYear_monthIndex.
  apply Z.div_le_mono; [lia|]. apply monthIndex_mono, H.
Qed.

(** An occurrence that is due uses up one period of the distance to
    [now]. *)
Lemma periodsElapsed_step r d now :
  validFrequency (RecurringTransaction.frequency r) = true ->
  getNextOccurrence r d <= now ->
  0 <= periodsElapsed (RecurringTransaction.frequency r)
         (getNextOccurrence r d) now
  /\ periodsElapsed (RecurringTransaction.frequency r)
       (getNextOccurrence r d) now + 1
     <= periodsElapsed (RecurringTransaction.frequency r) d now.
Proof.
  intros Hv Hle. apply Day_mono in Hle. revert Hv Hle.
  unfold getNextOccurrence, addYears, periodsElapsed.
  destruct (RecurringTransaction.frequency r); intros Hv Hle;
    try discriminate.
  - rewrite addDays_eq, Day_add_days, Day_startOfDay in *. lia.
  - rewrite addWeeks_eq in *.
    replace (1 * (7 * msPerDay)) with (7 * msPerDay) in * by lia.
    rewrite Day_add_days, Day_startOfDay in *.
    Z.to_euclidean_division_equations; lia.
  - apply monthIndex_mono in Hle.
    rewrite monthIndex_addMonths in *.
    rewrite (monthIndex_Day (startOfDay d) d (Day_startOfDay d)) in *. lia.
  - apply monthIndex_mono in Hle.
    rewrite !getFullYear_monthIndex.
    rewrite monthIndex_addMonths in *.
    rewrite (monthIndex_Day (startOfDay d) d (Day_startOfDay d)) in *.
    Z.to_euclidean_division_equations; lia.
Qed.


Lemma generateLoop_S fuel r now d acc :
  generateLoop (S fuel) r now d acc =
  let c := getNextOccurrence r d in
  if isAfter c now then Some acc
  else if isBefore c (startOfDay (RecurringTransaction.startDate r))
  then generateLoop fuel r now c acc
  else if afterEndDate r c then Some acc
  else generateLoop fuel r now c (acc ++ [autoTransaction r c]).
Proof. reflexivity. Qed.

(** Case analysis on one pass through the loop body in hypothesis [H]. *)
Ltac loop_step H c A B E :=
  rewrite generateLoop_S in H; cbv zeta in H;
  match type of H with
  | context [getNextOccurrence ?r ?d] =>
    let Hc := fresh "Hc" in remember (getNextOccurrence r d) as c eqn:Hc
  end;
  destruct (isAfter c _) eqn:A;
  [| destruct (isBefore c _) eqn:B;
     [| destruct (afterEndDate _ c) eqn:E ] ].

Lemma generateLoop_emits r now fuel :
  forall d acc l,
    generateLoop fuel r now d acc = Some l ->
    exists new, l = acc ++ new /\ Forall (emitted r now) new.
Proof.
  induction fuel as [|fuel IH]; intros d acc l H; [discriminate|].
  loop_step H c A B E.
  - injection H as <-. exists []. rewrite app_nil_r. auto.
  - apply IH in H. exact H.
  - injection H as <-. exists []. rewrite app_nil_r. auto.
  - apply IH in H. destruct H as (new & -> & Hall).
    exists (autoTransaction r c :: new). rewrite <- app_assoc. split; [reflexivity|].
    constructor; [|exact Hall].
    unfold emitted, isAfter, isBefore in *. cbn [Transaction.date autoTransaction].
    bool_to_Z. repeat split; try assumption; try lia.
    subst c. apply getNextOccurrence_dayTruncated.
Qed.

Lemma generateLoop_fuel_mono r now fuel :
  forall d acc l k,
    generateLoop fuel r now d acc = Some l ->
    generateLoop (fuel + k) r now d acc = Some l.
Proof.
  induction fuel as [|fuel IH]; intros d acc l k H; [discriminate|].
  replace (S fuel + k)%nat with (S (fuel + k)) by reflexivity.
  rewrite generateLoop_S in *. cbv zeta in *.
  destruct (isAfter _ _); [assumption|].
  destruct (isBefore _ _); [apply IH, H|].
  destruct (afterEndDate _ _); [assumption|]. apply IH, H.
Qed.

Lemma generateLoop_fuel_irrelevant r now fuel fuel' d acc l l' :
  generateLoop fuel r now d acc = Some l ->
  generateLoop fuel' r now d acc = Some l' ->
  l = l'.
Proof.
  intros H H'.
  apply (generateLoop_fuel_mono _ _ _ _ _ _ fuel') in H.
  apply (generateLoop_fuel_mono _ _ _ _ _ _ fuel) in H'.
  rewrite Nat.add_comm in H'. congruence.
Qed.

(** With a valid frequency the loop stops before its body has been
    entered more often than there are periods left until [now], plus the
    final pass that exits; it pushes at most one transaction per period. *)
Lemma generateLoop_terminates r now :
  validFrequency (RecurringTransaction.frequency r) = true ->
  forall fuel d acc,
    (Z.to_nat (periodsElapsed (RecurringTransaction.frequency r) d now)
     < fuel)%nat ->
    exists l,
      generateLoop fuel r now d acc = Some l
      /\ (List.length l
          <= List.length acc
             + Z.to_nat (periodsElapsed (RecurringTransaction.frequency r)
                           d now))%nat.
Proof.
  intros Hv. induction fuel as [|fuel IH]; intros d acc Hf; [lia|].
  rewrite generateLoop_S. cbv zeta.
  destruct (isAfter _ _) eqn:A; [exists acc; split; [reflexivity|lia]|].
  unfold isAfter in A. bool_to_Z.
  destruct (periodsElapsed_step r d now Hv) as [P0 P1]; [lia|].
  destruct (isBefore _ _) eqn:B.
  - destruct (IH (getNextOccurrence r d) acc) as (l & Hl & Hlen); [lia|].
    exists l. split; [exact Hl|lia].
  - destruct (afterEndDate _ _) eqn:E; [exists acc; split; [reflexivity|lia]|].
    destruct (IH (getNextOccurrence r d)
                 (acc ++ [autoTransaction r (getNextOccurrence r d)]))
      as (l & Hl & Hlen); [lia|].
    exists l. split; [exact Hl|]. rewrite length_app in Hlen. cbn in Hlen. lia.
Qed.

(** With a valid frequency the pushed dates increase strictly, starting
    after the anchor. *)
Lemma generateLoop_sorted r now :
  validFrequency (RecurringTransaction.frequency r) = true ->
  forall fuel d acc l,
    generateLoop fuel r now d acc = Some l ->
    exists new,
      l = acc ++ new
      /\ Forall (fun x => d < Transaction.date x) new
      /\ StronglySorted Z.lt (map Transaction.date new).
Proof.
  intros Hv. induction fuel as [|fuel IH]; intros d acc l H; [discriminate|].
  pose proof (getNextOccurrence_gt r d Hv) as Hgt.
  loop_step H c A B E.
  - injection H as <-. exists []. rewrite app_nil_r. repeat split; constructor.
  - apply IH in H. destruct H as (new & -> & Hall & Hs).
    exists new. repeat split; try assumption.
    eapply Forall_impl; [|exact Hall]. cbn. intros; lia.
  - injection H as <-. exists []. rewrite app_nil_r. repeat split; constructor.
  - apply IH in H. destruct H as (new & -> & Hall & Hs).
    exists (autoTransaction r c :: new). rewrite <- app_assoc.
    split; [reflexivity|]. split.
    + constructor; [cbn; lia|].
      eapply Forall_impl; [|exact Hall]. cbn. intros; lia.
    + cbn. constructor; [exact Hs|].
      apply Forall_map. exact Hall.
Qed.


(** With any other frequency the anchor never moves, so the loop either
    exits on its first pass, having pushed nothing, or never exits. *)
Lemma generateLoop_other r now :
  RecurringTransaction.frequency r = otherFrequency ->
  forall fuel d acc l,
    generateLoop fuel r now d acc = Some l -> l = acc.
Proof.
  intros Hf.
  assert (Hnext : forall d, getNextOccurrence r d = startOfDay d).
  { intros d. unfold getNextOccurrence. rewrite Hf. reflexivity. }
  assert (Hstuck : forall fuel d acc,
             isAfter (startOfDay d) now = false ->
             (isBefore (startOfDay d)
                (startOfDay (RecurringTransaction.startDate r)) = true
              \/ afterEndDate r (startOfDay d) = false) ->
             generateLoop fuel r now d acc = None).
  { induction fuel as [|fuel IH]; intros d acc A BE; [reflexivity|].
    rewrite generateLoop_S. cbv zeta. rewrite Hnext, A.
    destruct (isBefore _ _) eqn:B.
    - apply IH; rewrite startOfDay_idem; auto.
    - destruct BE as [BE|BE]; [discriminate|]. rewrite BE.
      apply IH; rewrite startOfDay_idem; auto. }
  intros fuel d acc l H. destruct fuel as [|fuel]; [discriminate|].
  pose proof (Hstuck (S fuel) d acc) as Hs.
  rewrite generateLoop_S in H. cbv zeta in H. rewrite Hnext in H.
  destruct (isAfter _ _) eqn:A; [congruence|].
  destruct (isBefore _ _) eqn:B.
  - rewrite generateLoop_S in Hs. cbv zeta in Hs. rewrite Hnext, A, B in Hs.
    rewrite Hs in H by auto. discriminate.
  - destruct (afterEndDate _ _) eqn:E; [congruence|].
    rewrite generateLoop_S in Hs. cbv zeta in Hs. rewrite Hnext, A, B, E in Hs.
    rewrite Hs in H by auto. discriminate.
Qed.

(** After the last pushed occurrence nothing more is due. *)
Lemma generateLoop_last r now :
  validFrequency (RecurringTransaction.frequency r) = true ->
  forall fuel d acc new x,
    generateLoop fuel r now d acc = Some (acc ++ new ++ [x]) ->
    exhausted r now (Transaction.date x).
Proof.
  intros Hv. induction fuel as [|fuel IH]; intros d acc new x H; [discriminate|].
  loop_step H c A B E.
  - injection H as H. rewrite <- (app_nil_r acc) in H at 1.
    apply app_inv_head in H. destruct new; discriminate.
  - eapply IH, H.
  - injection H as H. rewrite <- (app_nil_r acc) in H at 1.
    apply app_inv_head in H. destruct new; discriminate.
  - destruct (generateLoop_emits _ _ _ _ _ _ H) as (new' & Hl & _).
    rewrite <- app_assoc in Hl. apply app_inv_head in Hl.
    destruct new as [|n new].
    + cbn in Hl. injection Hl as -> <-.
      rewrite app_nil_l in H. cbn [Transaction.date autoTransaction].
      destruct fuel as [|fuel]; [discriminate|].
      pose proof (getNextOccurrence_gt r c Hv) as Hgt.
      unfold exhausted.
      loop_step H c2 A2 B2 E2.
      * reflexivity.
      * unfold isBefore in *. bool_to_Z. lia.
      * apply orb_true_r.
      * destruct (generateLoop_emits _ _ _ _ _ _ H) as (new2 & Hl2 & _).
        apply (f_equal (@List.length _)) in Hl2.
        rewrite !length_app in Hl2. cbn in Hl2. lia.
    + cbn in Hl. injection Hl as -> _.
      apply (IH c (acc ++ [autoTransaction r c]) new x).
      rewrite H. f_equal. rewrite <- app_assoc. reflexivity.
Qed.

(** Every transaction of a result was pushed by the loop. *)
Lemma generateDueTransactions_emits r currentDate fuel l :
  generateDueTransactions fuel r currentDate = Some l ->
  Forall (emitted r (startOfDay currentDate)) l.
Proof.
  unfold generateDueTransactions. intros H.
  destruct (negb _); [injection H as <-; constructor|].
  destruct (afterEndDate _ _); [injection H as <-; constructor|].
  apply generateLoop_emits in H. destruct H as (new & -> & Hall). exact Hall.
Qed.

End GeneratorFacts.

(** * The claims *)

Import EcmaFacts DateFnsFacts GeneratorFacts.

Lemma dayTruncated_isoDate y m d : dayTruncated (isoDate y m d).
Proof.
  apply dayTruncated_iff. unfold isoDate, utc.
  apply TimeWithinDay_MakeDate. pose proof msPerDay_pos. lia.
Qed.

Lemma afterEndDate_withLastGenerated r lg d :
  afterEndDate (RecurringTransaction.withLastGenerated r lg) d
  = afterEndDate r d.
Proof. reflexivity. Qed.

Lemma getNextOccurrence_withLastGenerated r lg d :
  getNextOccurrence (RecurringTransaction.withLastGenerated r lg) d
  = getNextOccurrence r d.
Proof. reflexivity. Qed.

(** C5.  Scenario A: a monthly schedule starting 2024-01-15, never
    generated, without end date and active, processed at any time of
    2024-04-10, yields exactly the occurrences of 2024-02-15 and 2024-03-15,
    in that order; neither the start date itself nor 2024-04-15 is
    produced.  Three passes through the loop body are needed. *)
Theorem scenario_A_two_occurrences
    (base : RecurringTransaction.t) (fuel : nat) (ms : Z) :
  (3 <= fuel)%nat ->
  0 <= ms < msPerDay ->
  generateDueTransactions fuel (monthlyFromJan15 base None)
    (isoDate 2024 4 10 + ms)
  = Some [autoTransaction (monthlyFromJan15 base None) (isoDate 2024 2 15);
          autoTransaction (monthlyFromJan15 base None) (isoDate 2024 3 15)].
Proof.
  intros Hfuel Hms.
  destruct fuel as [|[|[|fuel]]]; try lia.
  unfold generateDueTransactions.
  rewrite (startOfDay_offset _ _ (dayTruncated_isoDate 2024 4 10) Hms).
  vm_compute. reflexivity.
Qed.

(** Scenario A with the payload of [rent], at 09:30 of 2024-04-10. *)
Lemma scenario_A_two_occurrences_witness :
  option_map (map Transaction.date)
    (generateDueTransactions 3 scenarioA (isoDate 2024 4 10 + 34200000))
  = Some [isoDate 2024 2 15; isoDate 2024 3 15].
Proof.
  unfold scenarioA.
  rewrite (scenario_A_two_occurrences rent 3 34200000);
    [reflexivity | lia | vm_compute; split; [discriminate | reflexivity]].
Defined.

(** C1 as stated fails.  Scenario B: the schedule of scenario A with end
    date 2024-03-01, processed on 2024-04-10, yields no occurrence at all,
    so in particular not the single occurrence of 2024-02-15: the reference
    day is after the end date and the generator returns before its loop. *)
Lemma scenario_B_not_one_occurrence :
  generateDueTransactions 10 scenarioB (isoDate 2024 4 10) = Some []
  /\ ~ (exists x,
          generateDueTransactions 10 scenarioB (isoDate 2024 4 10) = Some [x]
          /\ Transaction.date x = isoDate 2024 2 15).
Proof.
  assert (H : generateDueTransactions 10 scenarioB (isoDate 2024 4 10) = Some [])
    by (vm_compute; reflexivity).
  split; [exact H|]. intros (x & Hx & _). rewrite H in Hx. discriminate.
Qed.

(** C1, amended.  Scenario B processed at any time of 2024-04-10 yields the
    empty list, whatever the fuel; processed at any time of its end date
    2024-03-01 it yields exactly one occurrence, dated 2024-02-15. *)
Theorem scenario_B_lapsed
    (base : RecurringTransaction.t) (fuel : nat) (ms : Z) :
  (2 <= fuel)%nat ->
  0 <= ms < msPerDay ->
  generateDueTransactions fuel
    (monthlyFromJan15 base (Some (isoDate 2024 3 1))) (isoDate 2024 4 10 + ms)
  = Some []
  /\ generateDueTransactions fuel
       (monthlyFromJan15 base (Some (isoDate 2024 3 1))) (isoDate 2024 3 1 + ms)
     = Some [autoTransaction (monthlyFromJan15 base (Some (isoDate 2024 3 1)))
               (isoDate 2024 2 15)].
Proof.
  intros Hfuel Hms. destruct fuel as [|[|fuel]]; try lia.
  unfold generateDueTransactions.
  rewrite (startOfDay_offset _ _ (dayTruncated_isoDate 2024 4 10) Hms).
  rewrite (startOfDay_offset _ _ (dayTruncated_isoDate 2024 3 1) Hms).
  split; vm_compute; reflexivity.
Qed.

(** Scenario B with the payload of [rent], one millisecond after
    midnight. *)
Lemma scenario_B_lapsed_witness :
  generateDueTransactions 2 scenarioB (isoDate 2024 4 10 + 1) = Some []
  /\ option_map (map Transaction.date)
       (generateDueTransactions 2 scenarioB (isoDate 2024 3 1 + 1))
     = Some [isoDate 2024 2 15].
Proof.
  unfold scenarioB.
  destruct (scenario_B_lapsed rent 2 1) as [H1 H2];
    [lia | vm_compute; split; [discriminate | reflexivity] |].
  rewrite H1, H2. split; reflexivity.
Defined.

(** C4.  An inactive schedule, and a schedule whose end date lies on a day
    before the reference day, yield the empty list; the loop is not entered
    (any fuel, even none, gives the result), so occurrences between start
    and end date that were never generated stay ungenerated. *)
Theorem lapsed_or_inactive_empty
    (r : RecurringTransaction.t) (currentDate : Z) (fuel : nat) :
  RecurringTransaction.isActive r = false
  \/ (exists e, RecurringTransaction.endDate r = Some e
                /\ startOfDay e < startOfDay currentDate) ->
  generateDueTransactions fuel r currentDate = Some [].
Proof.
  intros [Hin | (e & He & Hlt)]; unfold generateDueTransactions.
  - rewrite Hin. reflexivity.
  - destruct (RecurringTransaction.isActive r); [|reflexivity]. cbn [negb].
    unfold afterEndDate, isAfter. rewrite He.
    rewrite Z.gtb_ltb. apply Z.ltb_lt in Hlt. rewrite Hlt. reflexivity.
Qed.

(** Scenario B on 2024-04-10, without fuel: its occurrence of 2024-02-15
    was never generated and is not generated now. *)
Lemma lapsed_or_inactive_empty_witness :
  generateDueTransactions 0 scenarioB (isoDate 2024 4 10) = Some [].
Proof.
  apply lapsed_or_inactive_empty. right. exists (isoDate 2024 3 1).
  split; [reflexivity | vm_compute; reflexivity].
Defined.

(** C10.  Every transaction of the result carries type, amount and category
    of the schedule, the schedule's id as [recurringId], the description
    rendered by the template literal followed by " (Auto)" (the description
    itself when there is one), and a date at midnight that is not after the
    start of the reference day. *)
Theorem emitted_fields
    (r : RecurringTransaction.t) (currentDate : Z) (fuel : nat)
    (l : list Transaction.t) (x : Transaction.t) :
  generateDueTransactions fuel r currentDate = Some l ->
  In x l ->
  Transaction.type x = RecurringTransaction.type r
  /\ Transaction.amount x = RecurringTransaction.amount r
  /\ Transaction.category x = RecurringTransaction.category r
  /\ Transaction.recurringId x = Some (RecurringTransaction.id r)
  /\ Transaction.description x
     = (templateString (RecurringTransaction.description r) ++ " (Auto)")%string
  /\ (forall s, RecurringTransaction.description r = Some s ->
                Transaction.description x = (s ++ " (Auto)")%string)
  /\ dayTruncated (Transaction.date x)
  /\ Transaction.date x <= startOfDay currentDate.
Proof.
  intros H Hin. apply generateDueTransactions_emits in H.
  rewrite Forall_forall in H.
  destruct (H x Hin) as (Hx & Hd & Hnow & _).
  repeat split; try assumption; try (rewrite Hx; reflexivity).
  intros s Hs. rewrite Hx. cbn. rewrite Hs. reflexivity.
Qed.

(** The second occurrence of scenario A. *)
Lemma emitted_fields_witness :
  Transaction.description
    (autoTransaction scenarioA (isoDate 2024 3 15)) = "Rent (Auto)"%string
  /\ Transaction.date (autoTransaction scenarioA (isoDate 2024 3 15))
     <= startOfDay (isoDate 2024 4 10).
Proof.
  assert (H : generateDueTransactions 3 scenarioA (isoDate 2024 4 10)
              = Some [autoTransaction scenarioA (isoDate 2024 2 15);
                      autoTransaction scenarioA (isoDate 2024 3 15)])
    by (vm_compute; reflexivity).
  assert (Hin : In (autoTransaction scenarioA (isoDate 2024 3 15))
                  [autoTransaction scenarioA (isoDate 2024 2 15);
                   autoTransaction scenarioA (isoDate 2024 3 15)])
    by (right; left; reflexivity).
  destruct (emitted_fields _ _ _ _ _ H Hin)
    as (_ & _ & _ & _ & _ & Hd & _ & Hle).
  split; [exact (Hd "Rent"%string eq_refl) | exact Hle].
Defined.

(** The fuel of the model does not show in the result: whenever two runs
    on the same schedule and reference date return, they return the same
    list, and the dates of that list increase strictly. *)
Theorem generation_deterministic
    (r : RecurringTransaction.t) (currentDate : Z) (fuel fuel' : nat)
    (l l' : list Transaction.t) :
  generateDueTransactions fuel r currentDate = Some l ->
  generateDueTransactions fuel' r currentDate = Some l' ->
  l = l' /\ StronglySorted Z.lt (map Transaction.date l).
Proof.
  unfold generateDueTransactions. intros H H'.
  destruct (negb _); [split; [congruence|injection H as <-; constructor]|].
  destruct (afterEndDate _ _); [split; [congruence|injection H as <-; constructor]|].
  split; [eapply generateLoop_fuel_irrelevant; eassumption|].
  destruct (validFrequency (RecurringTransaction.frequency r)) eqn:Hv.
  - apply (generateLoop_sorted _ _ Hv) in H.
    destruct H as (new & -> & _ & Hs). exact Hs.
  - assert (Hf : RecurringTransaction.frequency r = otherFrequency)
      by (destruct (RecurringTransaction.frequency r); try discriminate; reflexivity).
    apply (generateLoop_other _ _ Hf) in H. subst l. constructor.
Qed.

(** Scenario A on 2024-04-10, run with fuel 3 and with fuel 8. *)
Lemma generation_deterministic_witness :
  StronglySorted Z.lt [isoDate 2024 2 15; isoDate 2024 3 15].
Proof.
  assert (H : forall fuel, (3 <= fuel)%nat ->
            generateDueTransactions fuel scenarioA (isoDate 2024 4 10)
            = Some [autoTransaction scenarioA (isoDate 2024 2 15);
                    autoTransaction scenarioA (isoDate 2024 3 15)]).
  { intros fuel Hf. destruct fuel as [|[|[|fuel]]]; try lia.
    vm_compute. reflexivity. }
  exact (proj2 (generation_deterministic scenarioA (isoDate 2024 4 10) 3 8 _ _
                  (H 3%nat ltac:(lia)) (H 8%nat ltac:(lia)))).
Defined.

Lemma getDate_Day t t' : Day t = Day t' -> getDate t = getDate t'.
Proof.
  intros H. rewrite !getDate_eq, (monthIndex_Day _ _ H), H. reflexivity.
Qed.

Lemma lengthOfMonth_monthIndex t :
  lengthOfMonth (monthIndex t) = daysInMonth (getFullYear t) (getMonth t).
Proof.
  unfold lengthOfMonth.
  rewrite <- getFullYear_monthIndex, <- getMonth_monthIndex. reflexivity.
Qed.

(** C7.  For each of the four frequencies [getNextOccurrence] returns a
    value (it is a total function of its arguments), at midnight, exactly
    one unit after the start of the input's day: 24 hours later for daily,
    seven days later for weekly; for monthly in the next calendar month and
    for yearly in the same month of the next year, on the input's day of the
    month, or on the last day of the target month when that month is
    shorter. *)
Theorem getNextOccurrence_one_unit
    (r : RecurringTransaction.t) (fromDate : Z) :
  validFrequency (RecurringTransaction.frequency r) = true ->
  dayTruncated (getNextOccurrence r fromDate)
  /\ match RecurringTransaction.frequency r with
     | daily =>
       getNextOccurrence r fromDate = startOfDay fromDate + msPerDay
     | weekly =>
       getNextOccurrence r fromDate = startOfDay fromDate + 7 * msPerDay
     | monthly =>
       monthIndex (getNextOccurrence r fromDate) = monthIndex fromDate + 1
       /\ getDate (getNextOccurrence r fromDate)
          = Z.min (getDate fromDate)
              (daysInMonth (getFullYear (getNextOccurrence r fromDate))
                           (getMonth (getNextOccurrence r fromDate)))
     | yearly =>
       getFullYear (getNextOccurrence r fromDate) = getFullYear fromDate + 1
       /\ getMonth (getNextOccurrence r fromDate) = getMonth fromDate
       /\ getDate (getNextOccurrence r fromDate)
          = Z.min (getDate fromDate)
              (daysInMonth (getFullYear fromDate + 1) (getMonth fromDate))
     | otherFrequency => False
     end.
Proof.
  intros Hv. split; [apply getNextOccurrence_dayTruncated|].
  pose proof (Day_startOfDay fromDate) as HD.
  pose proof (monthIndex_Day _ _ HD) as HM.
  pose proof (getDate_Day _ _ HD) as Hdt.
  revert Hv. unfold getNextOccurrence, addYears.
  destruct (RecurringTransaction.frequency r); intros Hv; try discriminate.
  - rewrite addDays_eq. lia.
  - rewrite addWeeks_eq. lia.
  - assert (Hidx : monthIndex (addMonths (startOfDay fromDate) 1)
                   = monthIndex fromDate + 1)
      by (rewrite monthIndex_addMonths; lia).
    split; [exact Hidx|].
    rewrite getDate_addMonths by lia.
    rewrite <- lengthOfMonth_monthIndex, Hidx, HM, Hdt. reflexivity.
  - assert (Hidx : monthIndex (addMonths (startOfDay fromDate) (1 * 12))
                   = monthIndex fromDate + 12)
      by (rewrite monthIndex_addMonths; lia).
    pose proof (getMonth_range fromDate) as Hr.
    assert (Hy : getFullYear (addMonths (startOfDay fromDate) (1 * 12))
                 = getFullYear fromDate + 1).
    { rewrite !getFullYear_monthIndex, Hidx.
      Z.to_euclidean_division_equations; lia. }
    assert (Hm : getMonth (addMonths (startOfDay fromDate) (1 * 12))
                 = getMonth fromDate).
    { rewrite !getMonth_monthIndex, Hidx.
      Z.to_euclidean_division_equations; lia. }
    repeat split; [exact Hy | exact Hm |].
    rewrite getDate_addMonths by lia.
    rewrite HM, Hdt. replace (monthIndex fromDate + 1 * 12)
      with (monthIndex (addMonths (startOfDay fromDate) (1 * 12))) by lia.
    rewrite lengthOfMonth_monthIndex, Hy, Hm. reflexivity.
Qed.

(** 2024-01-31 10:00 with a monthly schedule: the next occurrence is
    2024-02-29 at midnight. *)
Lemma getNextOccurrence_one_unit_witness :
  monthIndex (getNextOccurrence scenarioA (isoDate 2024 1 31 + 36000000))
  = monthIndex (isoDate 2024 1 31 + 36000000) + 1
  /\ getDate (getNextOccurrence scenarioA (isoDate 2024 1 31 + 36000000))
     = Z.min (getDate (isoDate 2024 1 31 + 36000000))
         (daysInMonth
            (getFullYear
               (getNextOccurrence scenarioA (isoDate 2024 1 31 + 36000000)))
            (getMonth
               (getNextOccurrence scenarioA (isoDate 2024 1 31 + 36000000)))).
Proof.
  exact (proj2 (getNextOccurrence_one_unit scenarioA
                  (isoDate 2024 1 31 + 36000000) eq_refl)).
Defined.

(** C8.  With one of the four frequencies every pass through the loop body
    moves the anchor strictly forward, and the generator returns as soon as
    the fuel exceeds the number of periods elapsed between the initial
    anchor (last generation date, else start date) and the reference day:
    at most that many passes advance the anchor, the pass after them
    exits, and at most that many occurrences are produced. *)
Theorem generation_terminates
    (r : RecurringTransaction.t) (currentDate : Z) :
  validFrequency (RecurringTransaction.frequency r) = true ->
  (forall d, d < getNextOccurrence r d)
  /\ (forall fuel,
        (Z.to_nat (periodsElapsed (RecurringTransaction.frequency r)
                     (checkFromDate r) (startOfDay currentDate)) < fuel)%nat ->
        exists l,
          generateDueTransactions fuel r currentDate = Some l
          /\ (List.length l
              <= Z.to_nat (periodsElapsed (RecurringTransaction.frequency r)
                             (checkFromDate r) (startOfDay currentDate)))%nat).
Proof.
  intros Hv. split; [intros d; apply getNextOccurrence_gt, Hv|].
  intros fuel Hfuel. unfold generateDueTransactions.
  destruct (negb _); [exists []; split; [reflexivity|cbn; lia]|].
  destruct (afterEndDate _ _); [exists []; split; [reflexivity|cbn; lia]|].
  destruct (generateLoop_terminates r (startOfDay currentDate) Hv fuel
              (checkFromDate r) [] Hfuel) as (l & Hl & Hlen).
  exists l. split; [exact Hl|exact Hlen].
Qed.

(** Scenario A on 2024-04-10: three calendar months are crossed, fuel 4
    suffices and at most three occurrences are produced. *)
Lemma generation_terminates_witness :
  exists l,
    generateDueTransactions 4 scenarioA (isoDate 2024 4 10) = Some l
    /\ (List.length l <= 3)%nat.
Proof.
  destruct (proj2 (generation_terminates scenarioA (isoDate 2024 4 10) eq_refl)
              4%nat) as (l & Hl & Hlen).
  - vm_compute. lia.
  - exists l. split; [exact Hl|].
    eapply Nat.le_trans; [exact Hlen|]. vm_compute. lia.
Defined.

(** C2.  If a run returns a non-empty list, ending with the occurrence [x],
    then a run on the same schedule with [lastGenerated] set to the date of
    [x], at the same reference date and with any fuel that lets the loop
    body be entered once, returns the empty list.  (A schedule that
    produces a non-empty list is necessarily active.) *)
Theorem checkpoint_no_reemission
    (r : RecurringTransaction.t) (currentDate : Z) (fuel fuel' : nat)
    (l : list Transaction.t) (x : Transaction.t) :
  generateDueTransactions fuel r currentDate = Some (l ++ [x]) ->
  (0 < fuel')%nat ->
  generateDueTransactions fuel'
    (RecurringTransaction.withLastGenerated r (Some (Transaction.date x)))
    currentDate
  = Some [].
Proof.
  unfold generateDueTransactions. intros H Hfuel.
  cbn [RecurringTransaction.withLastGenerated RecurringTransaction.isActive].
  rewrite afterEndDate_withLastGenerated.
  destruct (negb _); [reflexivity|].
  destruct (afterEndDate r (startOfDay currentDate)); [reflexivity|].
  set (now := startOfDay currentDate) in *.
  destruct (validFrequency (RecurringTransaction.frequency r)) eqn:Hv.
  - pose proof (generateLoop_emits _ _ _ _ _ _ H) as (new & Hnew & Hall).
    rewrite app_nil_l in Hnew. subst new.
    apply Forall_app in Hall. destruct Hall as [_ Hx].
    inversion Hx as [|? ? (_ & Htr & _ & Hstart & _) _]; subst.
    pose proof (generateLoop_last r now Hv _ _ [] l x H) as Hex.
    unfold exhausted in Hex.
    unfold checkFromDate.
    cbn [RecurringTransaction.withLastGenerated
         RecurringTransaction.lastGenerated].
    rewrite Htr.
    destruct fuel' as [|fuel']; [lia|].
    rewrite generateLoop_S. cbv zeta.
    rewrite getNextOccurrence_withLastGenerated, afterEndDate_withLastGenerated.
    cbn [RecurringTransaction.withLastGenerated RecurringTransaction.startDate].
    pose proof (getNextOccurrence_gt r (Transaction.date x) Hv) as Hgt.
    destruct (isAfter _ now) eqn:A; [reflexivity|].
    destruct (isBefore _ _) eqn:B.
    + unfold isBefore in B. apply Z.ltb_lt in B. lia.
    + cbn [orb] in Hex. rewrite Hex. reflexivity.
  - assert (Hf : RecurringTransaction.frequency r = otherFrequency)
      by (destruct (RecurringTransaction.frequency r); try discriminate; reflexivity).
    apply (generateLoop_other _ _ Hf) in H. destruct l; discriminate.
Qed.

(** Scenario A on 2024-04-10, run again from the checkpoint 2024-03-15. *)
Lemma checkpoint_no_reemission_witness :
  generateDueTransactions 1
    (RecurringTransaction.withLastGenerated scenarioA (Some (isoDate 2024 3 15)))
    (isoDate 2024 4 10)
  = Some [].
Proof.
  apply (checkpoint_no_reemission scenarioA (isoDate 2024 4 10) 3 1
           [autoTransaction scenarioA (isoDate 2024 2 15)]
           (autoTransaction scenarioA (isoDate 2024 3 15))).
  - vm_compute. reflexivity.
  - lia.
Defined.

Lemma occurrences_after r :
  validFrequency (RecurringTransaction.frequency r) = true ->
  forall n d c, In c (occurrences r d n) -> d < c.
Proof.
  intros Hv. induction n as [|n IH]; intros d c Hin; [destruct Hin|].
  pose proof (getNextOccurrence_gt r d Hv) as Hgt.
  destruct Hin as [<- | Hin]; [exact Hgt|].
  apply IH in Hin. lia.
Qed.

(** Run on the end day itself, the loop reaches an occurrence that falls on
    that day, pushes it and stops right after it. *)
Lemma generateLoop_reaches_end_day r e :
  RecurringTransaction.endDate r = Some e ->
  validFrequency (RecurringTransaction.frequency r) = true ->
  startOfDay (RecurringTransaction.startDate r) <= startOfDay e ->
  forall n fuel d acc,
    In (startOfDay e) (occurrences r d n) ->
    (Z.to_nat (periodsElapsed (RecurringTransaction.frequency r) d
                 (startOfDay e)) < fuel)%nat ->
    exists new,
      generateLoop fuel r (startOfDay e) d acc
      = Some (acc ++ new ++ [autoTransaction r (startOfDay e)]).
Proof.
  intros He Hv Hstart.
  assert (Hend : forall c, c <= startOfDay e -> afterEndDate r c = false).
  { intros c Hc. unfold afterEndDate, isAfter. rewrite He, Z.gtb_ltb.
    apply Z.ltb_ge. exact Hc. }
  induction n as [|n IH]; intros fuel d acc Hin Hfuel; [destruct Hin|].
  cbn [occurrences] in Hin.
  assert (Hle : getNextOccurrence r d <= startOfDay e).
  { destruct Hin as [-> | Hin]; [lia|].
    apply (occurrences_after r Hv) in Hin. lia. }
  destruct (periodsElapsed_step r d (startOfDay e) Hv Hle) as [P0 P1].
  destruct fuel as [|fuel]; [lia|].
  rewrite generateLoop_S. cbv zeta.
  unfold isAfter at 1. rewrite Z.gtb_ltb.
  replace (startOfDay e <? getNextOccurrence r d) with false
    by (symmetry; apply Z.ltb_ge; exact Hle).
  rewrite (Hend _ Hle).
  destruct Hin as [Hc | Hin].
  - unfold isBefore.
    replace (getNextOccurrence r d
             <? startOfDay (RecurringTransaction.startDate r)) with false
      by (symmetry; apply Z.ltb_ge; lia).
    rewrite Hc. destruct fuel as [|fuel]; [lia|].
    rewrite generateLoop_S. cbv zeta.
    pose proof (getNextOccurrence_gt r (startOfDay e) Hv) as Hgt.
    unfold isAfter. rewrite Z.gtb_ltb.
    replace (startOfDay e <? getNextOccurrence r (startOfDay e)) with true
      by (symmetry; apply Z.ltb_lt; exact Hgt).
    exists []. reflexivity.
  - destruct (isBefore _ _).
    + apply (IH fuel _ acc Hin). lia.
    + destruct (IH fuel _ (acc ++ [autoTransaction r (getNextOccurrence r d)])
                  Hin) as (new & Hnew); [lia|].
      exists (autoTransaction r (getNextOccurrence r d) :: new).
      rewrite Hnew. f_equal. rewrite <- app_assoc. reflexivity.
Qed.

(** C6.  Let the schedule have end date [e] and let the reference day not
    be after the day of [e].  The end-date test of the loop lets the day of
    [e] pass and rejects every later instant.  A candidate that reaches the
    test (it is due and not before the start date) and falls exactly on the
    day of [e] is pushed, and it is part of whatever the loop returns; a
    candidate after the day of [e] makes the loop stop with nothing added;
    every date of a result of the generator is at most the start of the
    day of [e]; and the generator, run on the day of [e] for an active
    schedule with one of the four frequencies one of whose occurrences
    falls on that day, returns a list that ends with that occurrence. *)
Theorem end_date_boundary
    (r : RecurringTransaction.t) (e currentDate : Z) :
  RecurringTransaction.endDate r = Some e ->
  startOfDay currentDate <= startOfDay e ->
  (afterEndDate r (startOfDay e) = false
   /\ forall c, startOfDay e < c -> afterEndDate r c = true)
  /\ (forall fuel d acc,
      getNextOccurrence r d = startOfDay e ->
      getNextOccurrence r d <= startOfDay currentDate ->
      startOfDay (RecurringTransaction.startDate r) <= getNextOccurrence r d ->
      generateLoop (S fuel) r (startOfDay currentDate) d acc
      = generateLoop fuel r (startOfDay currentDate) (getNextOccurrence r d)
          (acc ++ [autoTransaction r (getNextOccurrence r d)])
      /\ forall l,
           generateLoop (S fuel) r (startOfDay currentDate) d acc = Some l ->
           In (autoTransaction r (startOfDay e)) l)
  /\ (forall fuel d acc,
        startOfDay e < getNextOccurrence r d ->
        generateLoop (S fuel) r (startOfDay currentDate) d acc = Some acc)
  /\ (forall fuel l x,
        generateDueTransactions fuel r currentDate = Some l ->
        In x l -> Transaction.date x <= startOfDay e)
  /\ (forall fuel n,
        RecurringTransaction.isActive r = true ->
        validFrequency (RecurringTransaction.frequency r) = true ->
        startOfDay (RecurringTransaction.startDate r) <= startOfDay e ->
        startOfDay e <= startOfDay currentDate ->
        In (startOfDay e) (occurrences r (checkFromDate r) n) ->
        (Z.to_nat (periodsElapsed (RecurringTransaction.frequency r)
                     (checkFromDate r) (startOfDay currentDate))
         < fuel)%nat ->
        exists l,
          generateDueTransactions fuel r currentDate
          = Some (l ++ [autoTransaction r (startOfDay e)])).
Proof.
  intros He Hgate.
  split; [repeat split
         | split; [repeat split
                  | split; [repeat split | split; [repeat split | ]]]].
  - unfold afterEndDate, isAfter. rewrite He, Z.gtb_ltb. apply Z.ltb_irrefl.
  - intros c Hc. unfold afterEndDate, isAfter. rewrite He, Z.gtb_ltb.
    apply Z.ltb_lt, Hc.
  - rewrite generateLoop_S. cbv zeta.
    unfold isAfter, isBefore, afterEndDate. rewrite He.
    unfold isAfter. rewrite !Z.gtb_ltb.
    replace (startOfDay currentDate <? getNextOccurrence r d) with false
      by (symmetry; apply Z.ltb_ge; lia).
    replace (getNextOccurrence r d
             <? startOfDay (RecurringTransaction.startDate r)) with false
      by (symmetry; apply Z.ltb_ge; lia).
    replace (startOfDay e <? getNextOccurrence r d) with false
      by (symmetry; apply Z.ltb_ge; lia).
    reflexivity.
  - intros l Hl. rewrite generateLoop_S in Hl. cbv zeta in Hl.
    unfold isAfter, isBefore, afterEndDate in Hl. rewrite He in Hl.
    unfold isAfter in Hl. rewrite !Z.gtb_ltb in Hl.
    replace (startOfDay currentDate <? getNextOccurrence r d) with false in Hl
      by (symmetry; apply Z.ltb_ge; lia).
    replace (getNextOccurrence r d
             <? startOfDay (RecurringTransaction.startDate r)) with false in Hl
      by (symmetry; apply Z.ltb_ge; lia).
    replace (startOfDay e <? getNextOccurrence r d) with false in Hl
      by (symmetry; apply Z.ltb_ge; lia).
    apply generateLoop_emits in Hl. destruct Hl as (new & -> & _).
    rewrite H. apply in_or_app. left. apply in_or_app. right. left. reflexivity.
  - intros fuel d acc Hlt. rewrite generateLoop_S. cbv zeta.
    unfold isAfter. rewrite Z.gtb_ltb.
    replace (startOfDay currentDate <? getNextOccurrence r d) with true
      by (symmetry; apply Z.ltb_lt; lia).
    reflexivity.
  - intros fuel l x Hl Hin. apply generateDueTransactions_emits in Hl.
    rewrite Forall_forall in Hl.
    destruct (Hl x Hin) as (_ & _ & _ & _ & Hend).
    unfold afterEndDate, isAfter in Hend. rewrite He in Hend.
    bool_to_Z. lia.
  - intros fuel n Hact Hv Hstart Hday Hin Hfuel.
    assert (Hnow : startOfDay currentDate = startOfDay e) by lia.
    unfold generateDueTransactions. rewrite Hact, Hnow in *. cbn [negb].
    replace (afterEndDate r (startOfDay e)) with false
      by (unfold afterEndDate, isAfter; rewrite He, Z.gtb_ltb;
          symmetry; apply Z.ltb_irrefl).
    destruct (generateLoop_reaches_end_day r e He Hv Hstart n fuel
                (checkFromDate r) [] Hin Hfuel) as (new & Hnew).
    exists new. exact Hnew.
Qed.

(** The daily schedule from 2024-01-01 until 2024-01-05, never generated,
    processed on 2024-01-05: the generator returns the occurrences of
    2024-01-02 to 2024-01-05, the last one on the end date. *)
Lemma end_date_boundary_witness :
  exists l,
    generateDueTransactions 5 dailyUntilJan5 (isoDate 2024 1 5)
    = Some (l ++ [autoTransaction dailyUntilJan5
                    (startOfDay (isoDate 2024 1 5))]).
Proof.
  refine (proj2 (proj2 (proj2 (proj2
            (end_date_boundary dailyUntilJan5 (isoDate 2024 1 5)
               (isoDate 2024 1 5) eq_refl _))))
            5%nat 4%nat eq_refl eq_refl _ _ _ _).
  - vm_compute. discriminate.
  - vm_compute. discriminate.
  - vm_compute. discriminate.
  - vm_compute. right. right. right. left. reflexivity.
  - vm_compute. lia.
Defined.

(** C3.  The pass does not keep what C3 states.  Scenario A processed on
    2024-04-10 at 09:30: the occurrences of 2024-02-15 and 2024-03-15 are
    saved, and the checkpoint of the schedule becomes the instant of the
    update request, 2024-04-10 09:30:00.250, not the date of the last
    occurrence, 2024-03-15.  The generator anchors the series on the
    checkpoint as it does on the start date, so the series leaves its
    grid: run on 2024-05-20 from the state the pass leaves, it produces
    2024-05-10 only, and the occurrence of 2024-04-15 is never produced;
    run from the checkpoint C3 asks for, it produces 2024-04-15 and
    2024-05-15. *)
Lemma pass_checkpoint_not_last_occurrence :
  exists st',
    processRecurringTransactions 10 (fun _ => passApr10) false stateA
    = Some (st', true)
    /\ map Transaction.date (transactions st')
       = [isoDate 2024 2 15; isoDate 2024 3 15]
    /\ map RecurringTransaction.lastGenerated (recurringTransactions st')
       = [Some (isoDate 2024 4 10 + 34200250)]
    /\ map RecurringTransaction.lastGenerated (recurringTransactions st')
       <> [Some (isoDate 2024 3 15)]
    /\ map (fun r =>
              option_map (map Transaction.date)
                (generateDueTransactions 10 r (isoDate 2024 5 20)))
           (recurringTransactions st')
       = [Some [isoDate 2024 5 10]]
    /\ option_map (map Transaction.date)
         (generateDueTransactions 10
            (RecurringTransaction.withLastGenerated scenarioA
               (Some (isoDate 2024 3 15)))
            (isoDate 2024 5 20))
       = Some [isoDate 2024 4 15; isoDate 2024 5 15].
Proof.
  eexists. split; [vm_compute; reflexivity|].
  split; [vm_compute; reflexivity|].
  split; [vm_compute; reflexivity|].
  split; [vm_compute; discriminate|].
  split; vm_compute; reflexivity.
Qed.

(** What one step of the pass does with the checkpoint.  Processing one
    schedule always completes once the generator has returned.  When the
    generated list is empty, the state is left as it was and no update is
    requested.  When it is not empty and the update request succeeds, every
    entry of the state with the schedule's id is replaced by the stored row
    with [lastGenerated] set to the instant at which the request was made,
    which is not before the date of any generated occurrence if the clock
    did not run backwards; when the request fails, the schedules of the
    state are left as they were. *)
Theorem pass_checkpoint_is_request_time
    (fuel : nat) (io : PassIO) (recurring : RecurringTransaction.t)
    (st : AppState) (hasNew : bool) (due : list Transaction.t) :
  generateDueTransactions fuel recurring (generateClock io) = Some due ->
  exists st' hasNew',
    processRecurring fuel io recurring st hasNew = Some (st', hasNew')
    /\ (due = [] -> st' = st /\ hasNew' = hasNew)
    /\ (due <> [] ->
        forall row, patchRow io = Some row ->
          recurringTransactions st'
          = map (fun r =>
                   if RecurringTransaction.id r =? RecurringTransaction.id recurring
                   then patchLastGenerated row (patchClock io) else r)
                (recurringTransactions st)
          /\ RecurringTransaction.lastGenerated
               (patchLastGenerated row (patchClock io))
             = Some (patchClock io)
          /\ (generateClock io <= patchClock io ->
              forall x, In x due -> Transaction.date x <= patchClock io))
    /\ (due <> [] -> patchRow io = None ->
        recurringTransactions st' = recurringTransactions st).
Proof.
  intros Hgen. pose proof (generateDueTransactions_emits _ _ _ _ Hgen) as Hall.
  unfold processRecurring. rewrite Hgen.
  destruct due as [|x due].
  - exists st, hasNew. split; [reflexivity|].
    split; [intros _; split; reflexivity|].
    split; intros Hne; exfalso; apply Hne; reflexivity.
  - cbn [List.length Nat.ltb Nat.leb].
    destruct (saveTransactions io recurring (x :: due) (transactions st) hasNew)
      as [transactions' hasNew'].
    eexists. exists hasNew'. split; [reflexivity|].
    split; [intros Hnil; discriminate|].
    split.
    + intros _ row Hrow. cbn [recurringTransactions]. rewrite Hrow.
      split; [reflexivity|]. split; [reflexivity|].
      intros Hclock y Hy. rewrite Forall_forall in Hall.
      destruct (Hall y Hy) as (_ & _ & Hle & _).
      pose proof (startOfDay_bounds (generateClock io)). lia.
    + intros _ Hrow. cbn [recurringTransactions]. rewrite Hrow. reflexivity.
Qed.

(** The pass of 2024-04-10 over scenario A. *)
Lemma pass_checkpoint_is_request_time_witness :
  exists st' hasNew',
    processRecurring 3 passApr10 scenarioA stateA false = Some (st', hasNew')
    /\ recurringTransactions st'
       = [patchLastGenerated scenarioA (isoDate 2024 4 10 + 34200250)].
Proof.
  destruct (pass_checkpoint_is_request_time 3 passApr10 scenarioA stateA false
              [autoTransaction scenarioA (isoDate 2024 2 15);
               autoTransaction scenarioA (isoDate 2024 3 15)])
    as (st' & hasNew' & Hrun & _ & Hupd & _).
  - vm_compute. reflexivity.
  - exists st', hasNew'. split; [exact Hrun|].
    destruct (Hupd ltac:(discriminate) scenarioA eq_refl) as [Hmap _].
    rewrite Hmap. reflexivity.
Defined.

(** What the checkpoint of the pass of 2024-04-10 does to the later
    occurrences of scenario A: a run on 2024-05-12 produces one occurrence,
    dated 2024-05-10, one month after the day of the pass. *)
Remark later_run_from_pass_checkpoint :
  option_map (map Transaction.date)
    (generateDueTransactions 2
       (patchLastGenerated scenarioA (isoDate 2024 4 10 + 34200250))
       (isoDate 2024 5 12))
  = Some [isoDate 2024 5 10].
Proof. vm_compute. reflexivity. Qed.

(** * Further properties of the generator *)

Lemma autoTransaction_withEndDate r e d :
  autoTransaction (withEndDate r e) d = autoTransaction r d.
Proof. reflexivity. Qed.

Lemma getNextOccurrence_withEndDate r e d :
  getNextOccurrence (withEndDate r e) d = getNextOccurrence r d.
Proof. reflexivity. Qed.

(** The accumulator is only ever extended at its end. *)
Lemma generateLoop_acc r now fuel :
  forall d acc,
    generateLoop fuel r now d acc
    = option_map (app acc) (generateLoop fuel r now d []).
Proof.
  induction fuel as [|fuel IH]; intros d acc; [reflexivity|].
  rewrite !generateLoop_S. cbv zeta.
  destruct (isAfter _ _); [cbn; rewrite app_nil_r; reflexivity|].
  destruct (isBefore _ _); [apply IH|].
  destruct (afterEndDate _ _); [cbn; rewrite app_nil_r; reflexivity|].
  rewrite IH. rewrite (IH _ ([] ++ _)).
  destruct (generateLoop fuel r now (getNextOccurrence r d) []); cbn;
    [rewrite <- app_assoc; reflexivity | reflexivity].
Qed.

(** Once a candidate has been pushed, every later candidate is pushed or
    ends the loop: the pushed dates are successive occurrences. *)
Lemma generateLoop_occurrences r now :
  validFrequency (RecurringTransaction.frequency r) = true ->
  forall fuel d acc l,
    startOfDay (RecurringTransaction.startDate r) <= d ->
    generateLoop fuel r now d acc = Some l ->
    exists new,
      l = acc ++ new
      /\ map Transaction.date new = occurrences r d (List.length new).
Proof.
  intros Hv. induction fuel as [|fuel IH]; intros d acc l Hd H; [discriminate|].
  pose proof (getNextOccurrence_gt r d Hv) as Hgt.
  loop_step H c A B E.
  - injection H as <-. exists []. rewrite app_nil_r. split; reflexivity.
  - unfold isBefore in B. apply Z.ltb_lt in B. lia.
  - injection H as <-. exists []. rewrite app_nil_r. split; reflexivity.
  - apply IH in H; [|lia]. destruct H as (new & -> & Hnew).
    exists (autoTransaction r c :: new). rewrite <- app_assoc.
    split; [reflexivity|]. cbn. rewrite <- Hc, Hnew. reflexivity.
Qed.

Lemma successive_occurrences r d n : successive r (occurrences r d n).
Proof.
  revert d. induction n as [|n IH]; intros d; [exact I|].
  cbn [occurrences]. specialize (IH (getNextOccurrence r d)).
  destruct n as [|n]; [exact I|].
  cbn [occurrences successive] in *. split; [reflexivity|exact IH].
Qed.

Lemma generateLoop_successive r now :
  validFrequency (RecurringTransaction.frequency r) = true ->
  forall fuel d acc l,
    generateLoop fuel r now d acc = Some l ->
    exists new, l = acc ++ new /\ successive r (map Transaction.date new).
Proof.
  intros Hv. induction fuel as [|fuel IH]; intros d acc l H; [discriminate|].
  loop_step H c A B E.
  - injection H as <-. exists []. rewrite app_nil_r. split; [reflexivity|exact I].
  - apply IH in H. exact H.
  - injection H as <-. exists []. rewrite app_nil_r. split; [reflexivity|exact I].
  - unfold isBefore in B. apply Z.ltb_ge in B.
    apply (generateLoop_occurrences r now Hv) in H; [|exact B].
    destruct H as (new & -> & Hnew).
    exists (autoTransaction r c :: new). rewrite <- app_assoc.
    split; [reflexivity|].
    change (successive r (c :: map Transaction.date new)).
    rewrite Hnew. subst c.
    exact (successive_occurrences r d (S (List.length new))).
Qed.

(** X1.  With one of the four frequencies, the dates of a result form an
    unbroken run of the schedule: each one is the next occurrence after the
    one before it, so no occurrence between the first and the last is left
    out. *)
Theorem result_dates_successive
    (r : RecurringTransaction.t) (currentDate : Z) (fuel : nat)
    (l : list Transaction.t) :
  validFrequency (RecurringTransaction.frequency r) = true ->
  generateDueTransactions fuel r currentDate = Some l ->
  successive r (map Transaction.date l).
Proof.
  intros Hv. unfold generateDueTransactions. intros H.
  destruct (negb _); [injection H as <-; exact I|].
  destruct (afterEndDate _ _); [injection H as <-; exact I|].
  apply (generateLoop_successive _ _ Hv) in H.
  destruct H as (new & -> & Hs). exact Hs.
Qed.

(** Scenario A on 2024-04-10: 2024-03-15 is the occurrence after
    2024-02-15. *)
Lemma result_dates_successive_witness :
  successive scenarioA [isoDate 2024 2 15; isoDate 2024 3 15].
Proof.
  refine (result_dates_successive scenarioA (isoDate 2024 4 10) 3
            [autoTransaction scenarioA (isoDate 2024 2 15);
             autoTransaction scenarioA (isoDate 2024 3 15)] eq_refl _).
  vm_compute. reflexivity.
Defined.

(** X2.  When the anchor (the day of [lastGenerated], else of [startDate])
    is not before the start day, which is always so for a schedule that
    was never generated, the dates of a result are the first occurrences
    after the anchor, as many as the result is long: the first one lies one
    period after the anchor and the anchor itself is never produced. *)
Theorem result_dates_from_anchor
    (r : RecurringTransaction.t) (currentDate : Z) (fuel : nat)
    (l : list Transaction.t) :
  validFrequency (RecurringTransaction.frequency r) = true ->
  startOfDay (RecurringTransaction.startDate r) <= checkFromDate r ->
  generateDueTransactions fuel r currentDate = Some l ->
  map Transaction.date l = occurrences r (checkFromDate r) (List.length l)
  /\ Forall (fun x => checkFromDate r < Transaction.date x) l.
Proof.
  intros Hv Hd. unfold generateDueTransactions. intros H.
  destruct (negb _); [injection H as <-; split; [reflexivity|constructor]|].
  destruct (afterEndDate _ _); [injection H as <-; split; [reflexivity|constructor]|].
  pose proof (generateLoop_sorted _ _ Hv _ _ _ _ H) as (new' & Hl' & Hall & _).
  apply (generateLoop_occurrences _ _ Hv) in H; [|exact Hd].
  destruct H as (new & -> & Hnew). rewrite !app_nil_l in *. subst new'.
  split; assumption.
Qed.

(** The daily schedule from 2024-01-01, never generated, on 2024-01-03. *)
Lemma result_dates_from_anchor_witness :
  [isoDate 2024 1 2; isoDate 2024 1 3]
  = occurrences dailyUntilJan5 (checkFromDate dailyUntilJan5) 2.
Proof.
  refine (proj1 (result_dates_from_anchor dailyUntilJan5 (isoDate 2024 1 3) 3
                   [autoTransaction dailyUntilJan5 (isoDate 2024 1 2);
                    autoTransaction dailyUntilJan5 (isoDate 2024 1 3)]
                   eq_refl _ _)).
  - vm_compute. discriminate.
  - vm_compute. reflexivity.
Defined.

Lemma dayTruncated_gt_Day c now :
  dayTruncated c -> now < c -> Day now < Day c.
Proof.
  intros Hc Hlt. apply dayTruncated_iff in Hc.
  pose proof (time_decompose c) as Dc. pose proof (time_decompose now) as Dn.
  pose proof (TimeWithinDay_range now).
  rewrite Hc in Dc. unfold MakeDate, msPerDay in *. lia.
Qed.

Lemma generateLoop_count r now :
  RecurringTransaction.frequency r = daily
  \/ RecurringTransaction.frequency r = weekly ->
  afterEndDate r now = false ->
  forall fuel d acc l,
    startOfDay (RecurringTransaction.startDate r) <= d ->
    generateLoop fuel r now d acc = Some l ->
    List.length l
    = (List.length acc
       + Z.to_nat (periodsElapsed (RecurringTransaction.frequency r) d now))%nat.
Proof.
  intros Hf Hgate.
  assert (Hv : validFrequency (RecurringTransaction.frequency r) = true)
    by (destruct Hf as [-> | ->]; reflexivity).
  induction fuel as [|fuel IH]; intros d acc l Hd H; [discriminate|].
  pose proof (getNextOccurrence_gt r d Hv) as Hgt.
  pose proof (getNextOccurrence_dayTruncated r d) as Htr.
  assert (Hstep :
            periodsElapsed (RecurringTransaction.frequency r) d now
            = periodsElapsed (RecurringTransaction.frequency r)
                (getNextOccurrence r d) now + 1).
  { unfold periodsElapsed, getNextOccurrence.
    destruct Hf as [-> | ->].
    - rewrite addDays_eq, Day_add_days, Day_startOfDay. lia.
    - rewrite addWeeks_eq.
      replace (1 * (7 * msPerDay)) with (7 * msPerDay) by lia.
      rewrite Day_add_days, Day_startOfDay.
      Z.to_euclidean_division_equations; lia. }
  loop_step H c A B E.
  - injection H as <-. unfold isAfter in A. rewrite Z.gtb_ltb in A.
    apply Z.ltb_lt in A.
    pose proof (dayTruncated_gt_Day c now Htr A) as HD.
    assert (periodsElapsed (RecurringTransaction.frequency r) c now < 0).
    { unfold periodsElapsed. destruct Hf as [-> | ->];
        [lia | Z.to_euclidean_division_equations; lia]. }
    lia.
  - unfold isBefore in B. apply Z.ltb_lt in B. lia.
  - unfold isAfter in A. rewrite Z.gtb_ltb in A. apply Z.ltb_ge in A.
    unfold afterEndDate, isAfter in *.
    destruct (RecurringTransaction.endDate r); [|discriminate].
    rewrite Z.gtb_ltb in *. apply Z.ltb_lt in E. apply Z.ltb_ge in Hgate. lia.
  - unfold isAfter in A. rewrite Z.gtb_ltb in A. apply Z.ltb_ge in A.
    apply IH in H; [|lia]. rewrite H, length_app. cbn [List.length].
    assert (P0 : 0 <= periodsElapsed (RecurringTransaction.frequency r) c now).
    { subst c. apply (periodsElapsed_step r d now Hv). lia. }
    rewrite Hstep.
    rewrite Z2Nat.inj_add by lia. cbn. lia.
Qed.

(** X3.  A daily or weekly schedule that is active and has not lapsed, run
    from an anchor that is not before its start day, produces exactly one
    transaction per day, respectively per whole week, elapsed between the
    anchor and the reference day: the bound on the number of occurrences is
    attained. *)
Theorem daily_weekly_exact_count
    (r : RecurringTransaction.t) (currentDate : Z) (fuel : nat)
    (l : list Transaction.t) :
  RecurringTransaction.frequency r = daily
  \/ RecurringTransaction.frequency r = weekly ->
  RecurringTransaction.isActive r = true ->
  afterEndDate r (startOfDay currentDate) = false ->
  startOfDay (RecurringTransaction.startDate r) <= checkFromDate r ->
  generateDueTransactions fuel r currentDate = Some l ->
  List.length l
  = Z.to_nat (periodsElapsed (RecurringTransaction.frequency r)
                (checkFromDate r) (startOfDay currentDate)).
Proof.
  intros Hf Hact Hgate Hd. unfold generateDueTransactions.
  rewrite Hact, Hgate. cbn [negb]. intros H.
  apply (generateLoop_count r _ Hf Hgate) in H; [|exact Hd].
  exact H.
Qed.

(** The daily schedule from 2024-01-01 on 2024-01-05: four days, four
    transactions. *)
Lemma daily_weekly_exact_count_witness :
  exists l,
    generateDueTransactions 5 dailyUntilJan5 (isoDate 2024 1 5) = Some l
    /\ List.length l = 4%nat.
Proof.
  destruct (generateDueTransactions 5 dailyUntilJan5 (isoDate 2024 1 5))
    as [l|] eqn:H; [|vm_compute in H; discriminate].
  exists l. split; [reflexivity|].
  rewrite (daily_weekly_exact_count dailyUntilJan5 (isoDate 2024 1 5) 5 l);
    [ vm_compute; reflexivity | left; reflexivity | reflexivity
    | vm_compute; reflexivity | vm_compute; discriminate | exact H ].
Defined.

Lemma generateLoop_dayOfMonth r now :
  RecurringTransaction.frequency r = monthly
  \/ RecurringTransaction.frequency r = yearly ->
  forall fuel d acc l,
    generateLoop fuel r now d acc = Some l ->
    exists new,
      l = acc ++ new
      /\ Forall (fun x =>
                   getDate (Transaction.date x) <= getDate d
                   /\ (getDate d <= 28 ->
                       getDate (Transaction.date x) = getDate d)) new.
Proof.
  intros Hf.
  assert (Hnext : forall d,
             getDate (getNextOccurrence r d) <= getDate d
             /\ (getDate d <= 28 ->
                 getDate (getNextOccurrence r d) = getDate d)).
  { intros d. unfold getNextOccurrence, addYears.
    pose proof (getDate_Day _ _ (Day_startOfDay d)) as Hd.
    destruct Hf as [-> | ->]; rewrite getDate_addMonths by lia; rewrite Hd.
    - pose proof (lengthOfMonth_bounds (monthIndex (startOfDay d) + 1)). lia.
    - pose proof (lengthOfMonth_bounds (monthIndex (startOfDay d) + 1 * 12)).
      lia. }
  induction fuel as [|fuel IH]; intros d acc l H; [discriminate|].
  destruct (Hnext d) as [Hle Heq].
  loop_step H c A B E.
  - injection H as <-. exists []. rewrite app_nil_r. split; constructor.
  - apply IH in H. destruct H as (new & -> & Hall).
    exists new. split; [reflexivity|].
    eapply Forall_impl; [|exact Hall]. cbn. intros x [Hx1 Hx2]. split; [lia|].
    intros H28. rewrite Hx2; lia.
  - injection H as <-. exists []. rewrite app_nil_r. split; constructor.
  - apply IH in H. destruct H as (new & -> & Hall).
    exists (autoTransaction r c :: new). rewrite <- app_assoc.
    split; [reflexivity|]. constructor; [cbn; split; assumption|].
    eapply Forall_impl; [|exact Hall]. cbn. intros x [Hx1 Hx2]. split; [lia|].
    intros H28. rewrite Hx2; lia.
Qed.

(** X4.  The occurrences of a monthly or yearly schedule never fall on a
    later day of the month than the anchor does, and when the anchor's day
    of the month is at most 28 they all fall on that same day: only
    schedules anchored on the 29th, 30th or 31st move to an earlier day. *)
Theorem monthly_yearly_day_of_month
    (r : RecurringTransaction.t) (currentDate : Z) (fuel : nat)
    (l : list Transaction.t) (x : Transaction.t) :
  RecurringTransaction.frequency r = monthly
  \/ RecurringTransaction.frequency r = yearly ->
  generateDueTransactions fuel r currentDate = Some l ->
  In x l ->
  getDate (Transaction.date x) <= getDate (checkFromDate r)
  /\ (getDate (checkFromDate r) <= 28 ->
      getDate (Transaction.date x) = getDate (checkFromDate r)).
Proof.
  intros Hf. unfold generateDueTransactions. intros H Hin.
  destruct (negb _); [injection H as <-; destruct Hin|].
  destruct (afterEndDate _ _); [injection H as <-; destruct Hin|].
  apply (generateLoop_dayOfMonth _ _ Hf) in H.
  destruct H as (new & -> & Hall). rewrite app_nil_l in Hin.
  rewrite Forall_forall in Hall. exact (Hall x Hin).
Qed.

(** Scenario A: the occurrence of 2024-03-15 falls on the 15th, like the
    start date. *)
Lemma monthly_yearly_day_of_month_witness :
  getDate (isoDate 2024 3 15) = getDate (checkFromDate scenarioA).
Proof.
  refine (proj2 (monthly_yearly_day_of_month scenarioA (isoDate 2024 4 10) 3
                   [autoTransaction scenarioA (isoDate 2024 2 15);
                    autoTransaction scenarioA (isoDate 2024 3 15)]
                   (autoTransaction scenarioA (isoDate 2024 3 15))
                   (or_introl eq_refl) _ _) _).
  - vm_compute. reflexivity.
  - right. left. reflexivity.
  - vm_compute. discriminate.
Defined.

Lemma generateLoop_never_returns r now :
  RecurringTransaction.frequency r = otherFrequency ->
  forall fuel d acc,
    isAfter (startOfDay d) now = false ->
    isBefore (startOfDay d) (startOfDay (RecurringTransaction.startDate r))
    = true
    \/ afterEndDate r (startOfDay d) = false ->
    generateLoop fuel r now d acc = None.
Proof.
  intros Hf.
  assert (Hnext : forall d, getNextOccurrence r d = startOfDay d).
  { intros d. unfold getNextOccurrence. rewrite Hf. reflexivity. }
  induction fuel as [|fuel IH]; intros d acc A BE; [reflexivity|].
  rewrite generateLoop_S. cbv zeta. rewrite Hnext, A.
  destruct (isBefore _ _) eqn:B.
  - apply IH; rewrite startOfDay_idem; auto.
  - destruct BE as [BE|BE]; [discriminate|]. rewrite BE.
    apply IH; rewrite startOfDay_idem; auto.
Qed.

(** X5.  With a frequency outside the four values [getNextOccurrence]
    returns the start of the day it was given, so the loop cannot advance:
    for an active schedule that has not lapsed and whose anchor is not
    after the reference day, the generator does not return, whatever the
    fuel. *)
Theorem unknown_frequency_never_returns
    (r : RecurringTransaction.t) (currentDate : Z) (fuel : nat) :
  RecurringTransaction.frequency r = otherFrequency ->
  RecurringTransaction.isActive r = true ->
  afterEndDate r (startOfDay currentDate) = false ->
  checkFromDate r <= startOfDay currentDate ->
  generateDueTransactions fuel r currentDate = None.
Proof.
  intros Hf Hact Hgate Hle. unfold generateDueTransactions.
  rewrite Hact, Hgate. cbn [negb].
  assert (Htr : startOfDay (checkFromDate r) = checkFromDate r).
  { unfold checkFromDate.
    destruct (RecurringTransaction.lastGenerated r); apply startOfDay_idem. }
  apply (generateLoop_never_returns r _ Hf).
  - rewrite Htr. unfold isAfter. rewrite Z.gtb_ltb. apply Z.ltb_ge. exact Hle.
  - right. rewrite Htr. unfold afterEndDate, isAfter in *.
    destruct (RecurringTransaction.endDate r); [|reflexivity].
    rewrite Z.gtb_ltb in *. apply Z.ltb_ge in Hgate. apply Z.ltb_ge. lia.
Qed.

(** Scenario A with its frequency replaced by an unknown value. *)
Lemma unknown_frequency_never_returns_witness :
  generateDueTransactions 1000
    (RecurringTransaction.mk 7 expense (1200 # 1)%Q "Housing"%string
       (Some "Rent"%string) otherFrequency (isoDate 2024 1 15) None None true)
    (isoDate 2024 4 10)
  = None.
Proof.
  apply unknown_frequency_never_returns;
    [reflexivity | reflexivity | reflexivity | vm_compute; discriminate].
Defined.

Lemma generateLoop_withEndDate r now :
  afterEndDate r now = false ->
  forall fuel d acc,
    generateLoop fuel (withEndDate r None) now d acc
    = generateLoop fuel r now d acc.
Proof.
  intros Hgate. induction fuel as [|fuel IH]; intros d acc; [reflexivity|].
  rewrite !generateLoop_S. cbv zeta.
  rewrite getNextOccurrence_withEndDate, autoTransaction_withEndDate.
  cbn [withEndDate RecurringTransaction.startDate].
  destruct (isAfter (getNextOccurrence r d) now) eqn:A; [reflexivity|].
  destruct (isBefore _ _); [apply IH|].
  replace (afterEndDate r (getNextOccurrence r d)) with false; [apply IH|].
  symmetry. unfold afterEndDate, isAfter in *.
  destruct (RecurringTransaction.endDate r); [|reflexivity].
  rewrite Z.gtb_ltb in *. apply Z.ltb_ge in A, Hgate. apply Z.ltb_ge. lia.
Qed.

(** X6.  An end date only acts through the guard before the loop: as long
    as the reference day is not after the day of the end date, the schedule
    generates exactly what the same schedule without end date generates. *)
Theorem end_date_not_passed_is_ignored
    (r : RecurringTransaction.t) (currentDate : Z) (fuel : nat) :
  afterEndDate r (startOfDay currentDate) = false ->
  generateDueTransactions fuel r currentDate
  = generateDueTransactions fuel (withEndDate r None) currentDate.
Proof.
  intros Hgate. unfold generateDueTransactions.
  cbn [withEndDate RecurringTransaction.isActive].
  destruct (negb _); [reflexivity|]. rewrite Hgate.
  cbn [afterEndDate withEndDate RecurringTransaction.endDate].
  symmetry. apply generateLoop_withEndDate, Hgate.
Qed.

(** The daily schedule until 2024-01-05 on 2024-01-03. *)
Lemma end_date_not_passed_is_ignored_witness :
  generateDueTransactions 3 dailyUntilJan5 (isoDate 2024 1 3)
  = generateDueTransactions 3 (withEndDate dailyUntilJan5 None)
      (isoDate 2024 1 3).
Proof.
  apply end_date_not_passed_is_ignored. vm_compute. reflexivity.
Defined.

Lemma generateLoop_resume r now1 now2 :
  now1 <= now2 ->
  afterEndDate r now2 = false ->
  forall fuel1 d acc new1 x fuel2 l2,
    generateLoop fuel1 r now1 d acc = Some (acc ++ new1 ++ [x]) ->
    generateLoop fuel2 r now2 d acc = Some l2 ->
    exists l3,
      generateLoop fuel2 r now2 (Transaction.date x) [] = Some l3
      /\ l2 = acc ++ new1 ++ x :: l3.
Proof.
  intros Hnow Hgate.
  induction fuel1 as [|fuel1 IH]; intros d acc new1 x fuel2 l2 H1 H2;
    [discriminate|].
  destruct fuel2 as [|fuel2]; [discriminate|].
  rewrite generateLoop_S in H2. cbv zeta in H2.
  loop_step H1 c A B E.
  - injection H1 as H1. rewrite <- (app_nil_r acc) in H1 at 1.
    apply app_inv_head in H1. destruct new1; discriminate.
  - unfold isAfter in *. rewrite Z.gtb_ltb in *. apply Z.ltb_ge in A.
    replace (now2 <? c) with false in H2 by (symmetry; apply Z.ltb_ge; lia).
    destruct (IH _ _ _ _ _ _ H1 H2) as (l3 & Hl3 & ->).
    exists l3. split; [|reflexivity].
    apply (generateLoop_fuel_mono _ _ _ _ _ _ 1) in Hl3.
    rewrite Nat.add_1_r in Hl3. exact Hl3.
  - injection H1 as H1. rewrite <- (app_nil_r acc) in H1 at 1.
    apply app_inv_head in H1. destruct new1; discriminate.
  - unfold isAfter in A, H2. rewrite Z.gtb_ltb in A, H2. apply Z.ltb_ge in A.
    replace (now2 <? c) with false in H2 by (symmetry; apply Z.ltb_ge; lia).
    destruct (generateLoop_emits _ _ _ _ _ _ H1) as (new' & Hl & _).
    rewrite <- app_assoc in Hl. apply app_inv_head in Hl.
    destruct new1 as [|n new1].
    + cbn in Hl. injection Hl as -> <-.
      cbn [Transaction.date autoTransaction].
      rewrite generateLoop_acc in H2.
      destruct (generateLoop fuel2 r now2 c []) as [l3|] eqn:H3;
        [|discriminate].
      cbn in H2. injection H2 as <-. exists l3. split.
      * apply (generateLoop_fuel_mono _ _ _ _ _ _ 1) in H3.
        rewrite Nat.add_1_r in H3. exact H3.
      * rewrite <- app_assoc. reflexivity.
    + cbn in Hl. injection Hl as -> _.
      assert (H1' : generateLoop fuel1 r now1 c (acc ++ [autoTransaction r c])
                    = Some ((acc ++ [autoTransaction r c]) ++ new1 ++ [x])).
      { rewrite H1. f_equal. rewrite <- app_assoc. reflexivity. }
      destruct (IH _ _ _ _ _ _ H1' H2) as (l3 & Hl3 & ->).
      exists l3. split.
      * apply (generateLoop_fuel_mono _ _ _ _ _ _ 1) in Hl3.
        rewrite Nat.add_1_r in Hl3. exact Hl3.
      * rewrite <- app_assoc. reflexivity.
Qed.

(** The loop does not read the checkpoint. *)
Lemma generateLoop_withLastGenerated r lg now fuel :
  forall d acc,
    generateLoop fuel (RecurringTransaction.withLastGenerated r lg) now d acc
    = generateLoop fuel r now d acc.
Proof.
  induction fuel as [|fuel IH]; intros d acc; [reflexivity|].
  rewrite !generateLoop_S. cbv zeta.
  rewrite getNextOccurrence_withLastGenerated, afterEndDate_withLastGenerated.
  cbn [RecurringTransaction.withLastGenerated RecurringTransaction.startDate].
  destruct (isAfter _ _); [reflexivity|].
  destruct (isBefore _ _); [apply IH|].
  destruct (afterEndDate _ _); [reflexivity|]. apply IH.
Qed.

(** X7.  Generation can be resumed.  If a run at [date1] returns a list
    ending with [x], and the schedule has not lapsed at a later date
    [date2], then the run at [date2] returns that list followed by what a
    run at [date2] returns for the schedule with [lastGenerated] set to the
    date of [x]: nothing is produced twice and nothing is left out. *)
Theorem generation_resumes_from_last_occurrence
    (r : RecurringTransaction.t) (date1 date2 : Z) (fuel1 fuel2 : nat)
    (l1 l2 : list Transaction.t) (x : Transaction.t) :
  date1 <= date2 ->
  afterEndDate r (startOfDay date2) = false ->
  generateDueTransactions fuel1 r date1 = Some (l1 ++ [x]) ->
  generateDueTransactions fuel2 r date2 = Some l2 ->
  exists l3,
    generateDueTransactions fuel2
      (RecurringTransaction.withLastGenerated r (Some (Transaction.date x)))
      date2 = Some l3
    /\ l2 = l1 ++ x :: l3.
Proof.
  intros Hle Hgate H1 H2.
  pose proof (generateDueTransactions_emits _ _ _ _ H1) as Hall.
  apply Forall_app in Hall. destruct Hall as [_ Hx].
  inversion Hx as [|? ? (_ & Htr & _) _]; subst.
  unfold generateDueTransactions in *.
  cbn [RecurringTransaction.withLastGenerated RecurringTransaction.isActive].
  rewrite afterEndDate_withLastGenerated.
  destruct (negb _); [destruct l1; discriminate|].
  rewrite Hgate in *.
  destruct (afterEndDate r (startOfDay date1)); [destruct l1; discriminate|].
  unfold checkFromDate at 1.
  cbn [RecurringTransaction.withLastGenerated
       RecurringTransaction.lastGenerated].
  rewrite Htr.
  destruct (generateLoop_resume r (startOfDay date1) (startOfDay date2)
              (startOfDay_mono _ _ Hle) Hgate _ _ [] l1 x _ _ H1 H2)
    as (l3 & Hl3 & ->).
  exists l3. split; [|reflexivity].
  rewrite generateLoop_withLastGenerated. exact Hl3.
Qed.

(** Scenario A run on 2024-03-20 and again on 2024-05-20. *)
Lemma generation_resumes_from_last_occurrence_witness :
  exists l3,
    generateDueTransactions 5
      (RecurringTransaction.withLastGenerated scenarioA
         (Some (isoDate 2024 3 15)))
      (isoDate 2024 5 20) = Some l3
    /\ [autoTransaction scenarioA (isoDate 2024 2 15);
        autoTransaction scenarioA (isoDate 2024 3 15);
        autoTransaction scenarioA (isoDate 2024 4 15);
        autoTransaction scenarioA (isoDate 2024 5 15)]
       = [autoTransaction scenarioA (isoDate 2024 2 15)]
         ++ autoTransaction scenarioA (isoDate 2024 3 15) :: l3.
Proof.
  refine (generation_resumes_from_last_occurrence scenarioA
            (isoDate 2024 3 20) (isoDate 2024 5 20) 3 5
            [autoTransaction scenarioA (isoDate 2024 2 15)] _
            (autoTransaction scenarioA (isoDate 2024 3 15)) _ _ _ _).
  - vm_compute. discriminate.
  - reflexivity.
  - vm_compute. reflexivity.
  - vm_compute. reflexivity.
Defined.

(** X8.  A schedule with one of the four frequencies produces nothing on
    the day of its checkpoint or before: for the row that the [PATCH]
    returns, with [lastGenerated] set to the time of the request, the
    generator returns the empty list at every reference date whose day is
    not after the day of that time. *)
Theorem nothing_due_on_checkpoint_day
    (r : RecurringTransaction.t) (lastGenerated currentDate : Z)
    (fuel : nat) :
  validFrequency (RecurringTransaction.frequency r) = true ->
  startOfDay currentDate <= startOfDay lastGenerated ->
  generateDueTransactions (S fuel) (patchLastGenerated r lastGenerated)
    currentDate
  = Some [].
Proof.
  intros Hv Hle. unfold generateDueTransactions, patchLastGenerated.
  cbn [RecurringTransaction.withLastGenerated RecurringTransaction.isActive].
  destruct (negb _); [reflexivity|].
  destruct (afterEndDate _ _); [reflexivity|].
  unfold checkFromDate.
  cbn [RecurringTransaction.withLastGenerated
       RecurringTransaction.lastGenerated].
  rewrite generateLoop_S. cbv zeta.
  rewrite getNextOccurrence_withLastGenerated.
  pose proof (getNextOccurrence_advance r (startOfDay lastGenerated) Hv) as Ha.
  rewrite startOfDay_idem in Ha. pose proof msPerDay_pos.
  unfold isAfter. rewrite Z.gtb_ltb.
  replace (startOfDay currentDate
           <? getNextOccurrence r (startOfDay lastGenerated)) with true
    by (symmetry; apply Z.ltb_lt; lia).
  reflexivity.
Qed.

(** Scenario A after the pass of 2024-04-10 09:30, generated again at
    18:00 of the same day. *)
Lemma nothing_due_on_checkpoint_day_witness :
  generateDueTransactions 1
    (patchLastGenerated scenarioA (isoDate 2024 4 10 + 34200250))
    (isoDate 2024 4 10 + 64800000)
  = Some [].
Proof.
  apply nothing_due_on_checkpoint_day; [reflexivity|].
  vm_compute. discriminate.
Defined.

(** * Properties of the processing pass *)

Lemma saveTransactions_spec io recurring :
  forall due prev hasNew,
    exists new,
      saveTransactions io recurring due prev hasNew
      = (prev ++ new, (hasNew || negb (List.length new =? 0)%nat)%bool)
      /\ Forall (fun t =>
                   exists body,
                     In body due
                     /\ postResponse io
                          (Transaction.withRecurringId body
                             (RecurringTransaction.id recurring)) = Some t)
                new.
Proof.
  induction due as [|x due IH]; intros prev hasNew.
  - exists []. cbn. rewrite app_nil_r, orb_false_r. split; constructor.
  - cbn [saveTransactions].
    destruct (postResponse io _) as [t|] eqn:Hpost.
    + destruct (IH (prev ++ [t]) true) as (new & Heq & Hall).
      exists (t :: new). rewrite Heq, <- app_assoc. cbn.
      rewrite orb_true_r. split; [reflexivity|].
      constructor.
      * exists x. split; [left; reflexivity|exact Hpost].
      * eapply Forall_impl; [|exact Hall]. cbn.
        intros t' (body & Hin & Hb). exists body. split; [right|]; assumption.
    + destruct (IH prev hasNew) as (new & Heq & Hall).
      exists new. split; [exact Heq|].
      eapply Forall_impl; [|exact Hall]. cbn.
      intros t' (body & Hin & Hb). exists body. split; [right|]; assumption.
Qed.

Lemma forEachRecurring_spec fuel io :
  forall active st hasNew st' hasNew',
    forEachRecurring fuel io active st hasNew = Some (st', hasNew') ->
    exists new g,
      transactions st' = transactions st ++ new
      /\ hasNew' = (hasNew || negb (List.length new =? 0)%nat)%bool
      /\ Forall (fun t =>
                   exists a body,
                     In a active
                     /\ emitted a (startOfDay (generateClock (io a))) body
                     /\ postResponse (io a)
                          (Transaction.withRecurringId body
                             (RecurringTransaction.id a)) = Some t)
                new
      /\ recurringTransactions st' = map g (recurringTransactions st)
      /\ forall r,
           (forall a, In a active ->
                      RecurringTransaction.id a <> RecurringTransaction.id r) ->
           g r = r.
Proof.
  induction active as [|a active IH]; intros st hasNew st' hasNew' H.
  - injection H as <- <-. exists [], (fun r => r).
    rewrite app_nil_r, orb_false_r, map_id. repeat split; auto.
  - cbn [forEachRecurring] in H.
    destruct (processRecurring fuel (io a) a st hasNew) as [[st1 h1]|] eqn:H1;
      [|discriminate].
    apply IH in H. destruct H as (new2 & g2 & Ht2 & Hh2 & Hp2 & Hr2 & Hg2).
    unfold processRecurring in H1.
    destruct (generateDueTransactions fuel a (generateClock (io a)))
      as [due|] eqn:Hgen; [|discriminate].
    pose proof (generateDueTransactions_emits _ _ _ _ Hgen) as Hem.
    rewrite Forall_forall in Hem.
    destruct (0 <? List.length due)%nat.
    + destruct (saveTransactions_spec (io a) a due (transactions st) hasNew)
        as (new1 & Hsave & Hp1).
      rewrite Hsave in H1. injection H1 as <- <-.
      cbn [transactions recurringTransactions] in *.
      exists (new1 ++ new2).
      exists (fun r =>
                g2 (match patchRow (io a) with
                    | Some row =>
                      if RecurringTransaction.id r =? RecurringTransaction.id a
                      then patchLastGenerated row (patchClock (io a)) else r
                    | None => r
                    end)).
      split; [rewrite Ht2, app_assoc; reflexivity|].
      split.
      { rewrite Hh2, length_app.
        destruct new1, new2; cbn; rewrite ?orb_false_r, ?orb_true_r;
          reflexivity. }
      split.
      { apply Forall_app. split.
        - eapply Forall_impl; [|exact Hp1]. cbn.
          intros t (body & Hin & Hb). exists a, body.
          split; [left; reflexivity|]. split; [apply Hem, Hin|exact Hb].
        - eapply Forall_impl; [|exact Hp2]. cbn.
          intros t (a' & body & Hin & Hb). exists a', body.
          split; [right; exact Hin|exact Hb]. }
      split.
      { rewrite Hr2. destruct (patchRow (io a)).
        - rewrite map_map. reflexivity.
        - reflexivity. }
      intros r Hr.
      assert (Hne : (RecurringTransaction.id r =? RecurringTransaction.id a)
                    = false).
      { apply Z.eqb_neq. intros Heq. apply (Hr a); [left; reflexivity|].
        symmetry. exact Heq. }
      rewrite Hne.
      destruct (patchRow (io a)); apply Hg2; intros a' Ha'; apply Hr;
        right; exact Ha'.
    + injection H1 as <- <-.
      exists new2, g2. split; [exact Ht2|]. split; [exact Hh2|].
      split.
      { eapply Forall_impl; [|exact Hp2]. cbn.
        intros t (a' & body & Hin & Hb). exists a', body.
        split; [right; exact Hin|exact Hb]. }
      split; [exact Hr2|].
      intros r Hr. apply Hg2. intros a' Ha'. apply Hr. right. exact Ha'.
Qed.

Lemma pass_spec fuel io isLoading st st' toast :
  processRecurringTransactions fuel io isLoading st = Some (st', toast) ->
  exists new g,
    transactions st' = transactions st ++ new
    /\ toast = negb (List.length new =? 0)%nat
    /\ Forall (fun t =>
                 exists a body,
                   In a (recurringTransactions st)
                   /\ RecurringTransaction.isActive a = true
                   /\ emitted a (startOfDay (generateClock (io a))) body
                   /\ postResponse (io a)
                        (Transaction.withRecurringId body
                           (RecurringTransaction.id a)) = Some t)
              new
    /\ recurringTransactions st' = map g (recurringTransactions st)
    /\ forall r,
         (forall a, In a (recurringTransactions st) ->
                    RecurringTransaction.isActive a = true ->
                    RecurringTransaction.id a <> RecurringTransaction.id r) ->
         g r = r.
Proof.
  unfold processRecurringTransactions. intros H.
  assert (Hnone : Some (st, false) = Some (st', toast) ->
            exists new g,
              transactions st' = transactions st ++ new
              /\ toast = negb (List.length new =? 0)%nat
              /\ Forall (fun t =>
                   exists a body,
                     In a (recurringTransactions st)
                     /\ RecurringTransaction.isActive a = true
                     /\ emitted a (startOfDay (generateClock (io a))) body
                     /\ postResponse (io a)
                          (Transaction.withRecurringId body
                             (RecurringTransaction.id a)) = Some t)
                   new
              /\ recurringTransactions st' = map g (recurringTransactions st)
              /\ forall r,
                   (forall a, In a (recurringTransactions st) ->
                      RecurringTransaction.isActive a = true ->
                      RecurringTransaction.id a <> RecurringTransaction.id r) ->
                   g r = r).
  { intros [= <- <-]. exists [], (fun r => r).
    rewrite app_nil_r, map_id. repeat split; auto. }
  destruct (isLoading || _)%bool; [exact (Hnone H)|].
  destruct (List.length (filter _ _) =? 0)%nat; [exact (Hnone H)|].
  apply forEachRecurring_spec in H.
  destruct H as (new & g & Ht & Hh & Hp & Hr & Hg).
  exists new, g. split; [exact Ht|]. split; [exact Hh|].
  split.
  { eapply Forall_impl; [|exact Hp]. cbn.
    intros t (a & body & Hin & Hb). apply filter_In in Hin.
    exists a, body. tauto. }
  split; [exact Hr|].
  intros r Hr'. apply Hg. intros a Ha. apply filter_In in Ha.
  apply Hr'; tauto.
Qed.

(** X9.  A pass that returns only appends to the transactions of the
    state, and it reports new transactions (the success toast) exactly when
    it has appended at least one. *)
Theorem pass_appends_and_reports
    (fuel : nat) (io : RecurringTransaction.t -> PassIO) (isLoading : bool)
    (st st' : AppState) (toast : bool) :
  processRecurringTransactions fuel io isLoading st = Some (st', toast) ->
  exists new,
    transactions st' = transactions st ++ new
    /\ (toast = true <-> new <> []).
Proof.
  intros H. apply pass_spec in H. destruct H as (new & _ & Ht & -> & _).
  exists new. split; [exact Ht|].
  destruct new; cbn; split; congruence.
Qed.

(** The pass of 2024-04-10 over scenario A appends two transactions. *)
Lemma pass_appends_and_reports_witness :
  exists st' new,
    processRecurringTransactions 3 (fun _ => passApr10) false stateA
    = Some (st', true)
    /\ transactions st' = transactions stateA ++ new
    /\ new <> [].
Proof.
  destruct (processRecurringTransactions 3 (fun _ => passApr10) false stateA)
    as [[st' toast]|] eqn:H; [|vm_compute in H; discriminate].
  assert (Ht : toast = true) by (vm_compute in H; congruence). subst toast.
  destruct (pass_appends_and_reports _ _ _ _ _ _ H) as (new & Hnew & Hiff).
  exists st', new. split; [reflexivity|]. split; [exact Hnew|].
  apply Hiff. reflexivity.
Defined.



(** X11.  A pass keeps the list of schedules in length and order, and it
    leaves in place every schedule whose id is not the id of an active
    schedule of the state; with distinct ids these are the inactive
    schedules. *)
Theorem pass_leaves_other_schedules
    (fuel : nat) (io : RecurringTransaction.t -> PassIO) (isLoading : bool)
    (st st' : AppState) (toast : bool) :
  processRecurringTransactions fuel io isLoading st = Some (st', toast) ->
  List.length (recurringTransactions st')
  = List.length (recurringTransactions st)
  /\ forall i r,
       nth_error (recurringTransactions st) i = Some r ->
       (forall a, In a (recurringTransactions st) ->
                  RecurringTransaction.isActive a = true ->
                  RecurringTransaction.id a <> RecurringTransaction.id r) ->
       nth_error (recurringTransactions st') i = Some r.
Proof.
  intros H. apply pass_spec in H. destruct H as (_ & g & _ & _ & _ & Hr & Hg).
  rewrite Hr. split; [apply length_map|].
  intros i r Hi Hid. rewrite nth_error_map, Hi. cbn. f_equal. apply Hg, Hid.
Qed.

(** The pass of 2024-04-10 over scenario A and a paused schedule with
    another id: the paused one stays as it is. *)
Lemma pass_leaves_other_schedules_witness :
  exists st' toast,
    processRecurringTransactions 3 (fun _ => passApr10) false
      {| transactions := [];
         recurringTransactions :=
           [scenarioA;
            RecurringTransaction.mk 8 income (10 # 1)%Q "Gift"%string None
              weekly (isoDate 2024 1 1) None None false] |}
    = Some (st', toast)
    /\ nth_error (recurringTransactions st') 1
       = Some (RecurringTransaction.mk 8 income (10 # 1)%Q "Gift"%string None
                 weekly (isoDate 2024 1 1) None None false).
Proof.
  destruct (processRecurringTransactions 3 (fun _ => passApr10) false
              {| transactions := [];
                 recurringTransactions :=
                   [scenarioA;
                    RecurringTransaction.mk 8 income (10 # 1)%Q "Gift"%string
                      None weekly (isoDate 2024 1 1) None None false] |})
    as [[st' toast]|] eqn:H; [|vm_compute in H; discriminate].
  exists st', toast. split; [reflexivity|].
  apply (proj2 (pass_leaves_other_schedules _ _ _ _ _ _ H) 1%nat).
  - reflexivity.
  - intros a [<- | [<- | []]] Hact; [discriminate | discriminate].
Defined.

Lemma generateDueTransactions_returns r currentDate fuel :
  validFrequency (RecurringTransaction.frequency r) = true ->
  (Z.to_nat (periodsElapsed (RecurringTransaction.frequency r)
               (checkFromDate r) (startOfDay currentDate)) < fuel)%nat ->
  exists l, generateDueTransactions fuel r currentDate = Some l.
Proof.
  intros Hv Hfuel. unfold generateDueTransactions.
  destruct (negb _); [exists []; reflexivity|].
  destruct (afterEndDate _ _); [exists []; reflexivity|].
  destruct (generateLoop_terminates r (startOfDay currentDate) Hv fuel
              (checkFromDate r) [] Hfuel) as (l & Hl & _).
  exists l. exact Hl.
Qed.

Lemma processRecurring_returns fuel io a st hasNew l :
  generateDueTransactions fuel a (generateClock io) = Some l ->
  exists st' hasNew',
    processRecurring fuel io a st hasNew = Some (st', hasNew').
Proof.
  intros H. unfold processRecurring. rewrite H.
  destruct (0 <? List.length l)%nat; [|eauto].
  destruct (saveTransactions io a l (transactions st) hasNew). eauto.
Qed.

Lemma forEachRecurring_returns fuel io :
  forall active st hasNew,
    (forall a, In a active ->
       exists l,
         generateDueTransactions fuel a (generateClock (io a)) = Some l) ->
    exists st' hasNew',
      forEachRecurring fuel io active st hasNew = Some (st', hasNew').
Proof.
  induction active as [|a active IH]; intros st hasNew Hact; [cbn; eauto|].
  cbn [forEachRecurring].
  destruct (Hact a (or_introl eq_refl)) as (l & Hl).
  destruct (processRecurring_returns fuel (io a) a st hasNew l Hl)
    as (st1 & h1 & H1).
  rewrite H1. apply IH. intros a' Ha'. apply Hact. right. exact Ha'.
Qed.

(** X12.  A pass completes whenever every active schedule of the state has
    one of the four frequencies and the fuel exceeds the number of its
    periods elapsed at the time of the pass: failing requests do not stop
    it, and the updates made for one schedule do not affect the generation
    for the others, which is done on the schedules as they were when the
    pass began. *)
Theorem pass_completes
    (fuel : nat) (io : RecurringTransaction.t -> PassIO) (isLoading : bool)
    (st : AppState) :
  (forall a,
      In a (recurringTransactions st) ->
      RecurringTransaction.isActive a = true ->
      validFrequency (RecurringTransaction.frequency a) = true
      /\ (Z.to_nat (periodsElapsed (RecurringTransaction.frequency a)
                      (checkFromDate a)
                      (startOfDay (generateClock (io a)))) < fuel)%nat) ->
  exists st' toast,
    processRecurringTransactions fuel io isLoading st = Some (st', toast).
Proof.
  intros Hall. unfold processRecurringTransactions.
  destruct (isLoading || _)%bool; [eauto|].
  destruct (List.length (filter _ _) =? 0)%nat; [eauto|].
  assert (Hact : forall a,
             In a (filter RecurringTransaction.isActive
                     (recurringTransactions st)) ->
             exists l,
               generateDueTransactions fuel a (generateClock (io a)) = Some l).
  { intros a Ha. apply filter_In in Ha. destruct Ha as [Hin Hact].
    destruct (Hall a Hin Hact) as [Hv Hf].
    apply generateDueTransactions_returns; assumption. }
  apply forEachRecurring_returns, Hact.
Qed.

(** The pass of 2024-04-10 over scenario A with fuel 4. *)
Lemma pass_completes_witness :
  exists st' toast,
    processRecurringTransactions 4 (fun _ => passApr10) false stateA
    = Some (st', toast).
Proof.
  apply pass_completes. intros a [<- | []] _.
  split; [reflexivity|]. vm_compute. lia.
Defined.

(** * Properties of the list handlers and of the [PATCH] handler *)

Lemma numberToString_inj a b : numberToString a = numberToString b -> a = b.
Proof.
  unfold numberToString. intros H.
  assert (Hn : forall z,
             NilZero.int_of_string (NilZero.string_of_int (Z.to_int z))
             = Some (Z.to_int z)).
  { intros z. apply NilZero.isi; destruct z; cbn; try discriminate;
      intros [= Hp]; exact (DecimalPos.Unsigned.to_uint_nonnil _ Hp). }
  apply (f_equal NilZero.int_of_string) in H. rewrite !Hn in H.
  injection H as H. apply DecimalZ.to_int_inj, H.
Qed.

Lemma idMatches_string n m :
  idMatches n (IdString (numberToString m)) = (n =? m).
Proof.
  cbn. destruct (Z.eqb_spec n m) as [->|Hne].
  - apply String.eqb_refl.
  - apply String.eqb_neq. intros H. apply Hne, numberToString_inj, H.
Qed.

Lemma filter_all_true {A : Type} (l : list A) :
  filter (fun _ => true) l = l.
Proof. induction l as [|x l IH]; cbn; [|rewrite IH]; reflexivity. Qed.

(** X13.  After a confirmed deletion requested with the decimal rendering
    of an id, the state holds exactly the schedules with another id and
    exactly the transactions that do not refer to that id, each list in
    its previous order: the schedule's generated transactions go with it,
    and transactions entered by hand stay. *)
Theorem delete_recurring_cascades (n : Z) (st : AppState) :
  recurringTransactions
    (handleDeleteRecurring (IdString (numberToString n)) true st)
  = filter (fun r => negb (RecurringTransaction.id r =? n))
      (recurringTransactions st)
  /\ transactions
       (handleDeleteRecurring (IdString (numberToString n)) true st)
     = filter (fun x => match Transaction.recurringId x with
                        | Some m => negb (m =? n)
                        | None => true
                        end)
         (transactions st)
  /\ (forall x,
        In x (transactions
                (handleDeleteRecurring (IdString (numberToString n)) true st)) ->
        Transaction.recurringId x <> Some n)
  /\ (forall x,
        In x (transactions st) -> Transaction.recurringId x = None ->
        In x (transactions
                (handleDeleteRecurring (IdString (numberToString n)) true st))).
Proof.
  assert (Ht : transactions
                 (handleDeleteRecurring (IdString (numberToString n)) true st)
               = filter (fun x => match Transaction.recurringId x with
                                  | Some m => negb (m =? n)
                                  | None => true
                                  end)
                   (transactions st)).
  { cbn [handleDeleteRecurring transactions]. apply filter_ext. intros x.
    unfold recurringIdDiffers. destruct (Transaction.recurringId x); [|reflexivity].
    rewrite idMatches_string. reflexivity. }
  split.
  { cbn [handleDeleteRecurring recurringTransactions]. apply filter_ext.
    intros r. rewrite idMatches_string. reflexivity. }
  split; [exact Ht|]. rewrite Ht. split.
  - intros x Hx. apply filter_In in Hx. destruct Hx as [_ Hx].
    intros Heq. rewrite Heq, Z.eqb_refl in Hx. discriminate.
  - intros x Hx Hnone. apply filter_In. split; [exact Hx|].
    rewrite Hnone. reflexivity.
Qed.

(** X14.  The handlers compare [id.toString()] strictly with their
    argument.  When the argument is a number, not a string, nothing
    matches: a confirmed deletion leaves both lists of the state as they
    were, and a toggle returns without sending a request or changing the
    state. *)
Theorem number_argument_matches_nothing
    (n : Z) (responseOk : bool)
    (serverRow : option RecurringTransaction.t) (st : AppState) :
  handleDeleteRecurring (IdNumber n) responseOk st = st
  /\ handleToggleActive (IdNumber n) serverRow st = st.
Proof.
  split.
  - unfold handleDeleteRecurring. destruct responseOk; [|reflexivity].
    destruct st as [ts rs]. cbn [transactions recurringTransactions].
    f_equal.
    + rewrite (filter_ext _ (fun _ => true)); [apply filter_all_true|].
      intros x. unfold recurringIdDiffers.
      destruct (Transaction.recurringId x); reflexivity.
    + apply filter_all_true.
  - unfold handleToggleActive.
    replace (find (fun r => idMatches (RecurringTransaction.id r) (IdNumber n))
               (recurringTransactions st)) with (@None RecurringTransaction.t);
      [reflexivity|].
    induction (recurringTransactions st) as [|r rs IH]; [reflexivity|exact IH].
Qed.

Lemma applyUpdates_toggle_back r :
  applyUpdates
    (applyUpdates r
       {| updateIsActive := Some (negb (RecurringTransaction.isActive r));
          updateLastGenerated := None |})
    {| updateIsActive := Some (RecurringTransaction.isActive r);
       updateLastGenerated := None |}
  = r.
Proof. destruct r. reflexivity. Qed.

Lemma find_ext {A : Type} (f g : A -> bool) (l : list A) :
  (forall x, f x = g x) -> find f l = find g l.
Proof.
  intros H. induction l as [|x l IH]; [reflexivity|].
  cbn. rewrite H, IH. reflexivity.
Qed.

Lemma handleToggleActive_string n row st r0 :
  find (fun r => RecurringTransaction.id r =? n) (recurringTransactions st)
  = Some r0 ->
  handleToggleActive (IdString (numberToString n)) (Some row) st
  = {| transactions := transactions st;
       recurringTransactions :=
         map (fun r =>
                if RecurringTransaction.id r =? n
                then applyUpdates row
                       {| updateIsActive :=
                            Some (negb (RecurringTransaction.isActive r0));
                          updateLastGenerated := None |}
                else r)
             (recurringTransactions st) |}.
Proof.
  intros Hfind. unfold handleToggleActive.
  rewrite (find_ext _ (fun r => RecurringTransaction.id r =? n))
    by (intros r; apply idMatches_string).
  rewrite Hfind. cbn [patchRecurring bodyIsActive bodyLastGenerated].
  f_equal. apply map_ext. intros r. rewrite idMatches_string. reflexivity.
Qed.

(** X15.  For a string argument, toggling is undone by toggling again.
    Let the state hold a schedule with id [n], the only one with that id,
    and let the server hold the same row.  A toggle called with the
    decimal string of [n] inverts [isActive] of that schedule and changes
    nothing else; a second such toggle, answered from the row the first
    one stored, gives back the original state.  (Called with a number the
    handler does nothing at all, see X14.) *)
Theorem toggle_twice_restores
    (n : Z) (r0 : RecurringTransaction.t) (st : AppState) :
  In r0 (recurringTransactions st) ->
  RecurringTransaction.id r0 = n ->
  (forall r, In r (recurringTransactions st) ->
             RecurringTransaction.id r = n -> r = r0) ->
  exists r1,
    patchRecurring r0
      {| bodyIsActive :=
           IsActiveBoolean (negb (RecurringTransaction.isActive r0));
         bodyLastGenerated := LastGeneratedUndefined |} = PatchOk r1
    /\ RecurringTransaction.isActive r1
       = negb (RecurringTransaction.isActive r0)
    /\ handleToggleActive (IdString (numberToString n)) (Some r0) st
       = {| transactions := transactions st;
            recurringTransactions :=
              map (fun r => if RecurringTransaction.id r =? n then r1 else r)
                  (recurringTransactions st) |}
    /\ handleToggleActive (IdString (numberToString n)) (Some r1)
         (handleToggleActive (IdString (numberToString n)) (Some r0) st)
       = st.
Proof.
  intros Hin Hid Huniq.
  set (r1 := applyUpdates r0
               {| updateIsActive :=
                    Some (negb (RecurringTransaction.isActive r0));
                  updateLastGenerated := None |}).
  assert (Hfind : find (fun r => RecurringTransaction.id r =? n)
                    (recurringTransactions st) = Some r0).
  { destruct (find (fun r => RecurringTransaction.id r =? n)
                (recurringTransactions st)) as [r|] eqn:Hf.
    - apply find_some in Hf. destruct Hf as [Hr Hn]. apply Z.eqb_eq in Hn.
      f_equal. apply Huniq; assumption.
    - exfalso. apply (find_none _ _ Hf) in Hin.
      rewrite Hid, Z.eqb_refl in Hin. discriminate. }
  assert (H1 : handleToggleActive (IdString (numberToString n)) (Some r0) st
               = {| transactions := transactions st;
                    recurringTransactions :=
                      map (fun r =>
                             if RecurringTransaction.id r =? n then r1 else r)
                          (recurringTransactions st) |})
    by (apply handleToggleActive_string, Hfind).
  exists r1. split; [reflexivity|]. split; [reflexivity|].
  split; [exact H1|]. rewrite H1.
  assert (Hfind1 : find (fun r => RecurringTransaction.id r =? n)
                     (map (fun r =>
                             if RecurringTransaction.id r =? n then r1 else r)
                        (recurringTransactions st)) = Some r1).
  { clear - Hfind Hid. revert Hfind.
    induction (recurringTransactions st) as [|r rs IH]; [discriminate|].
    cbn [find map]. destruct (RecurringTransaction.id r =? n) eqn:E.
    - intros _. assert (Hr1 : RecurringTransaction.id r1 = n) by exact Hid.
      rewrite Hr1, Z.eqb_refl. reflexivity.
    - rewrite E. exact IH. }
  rewrite (handleToggleActive_string n r1 _ r1)
    by (cbn [recurringTransactions]; exact Hfind1).
  cbn [transactions recurringTransactions].
  destruct st as [ts rs]. cbn [transactions recurringTransactions] in *.
  f_equal. rewrite map_map. rewrite <- (map_id rs) at 2.
  apply map_ext_in. intros r Hr.
  destruct (RecurringTransaction.id r =? n) eqn:E.
  - assert (Hr1 : RecurringTransaction.id r1 = n) by exact Hid.
    rewrite Hr1, Z.eqb_refl. apply Z.eqb_eq in E.
    rewrite (Huniq r Hr E). unfold r1.
    replace (negb (RecurringTransaction.isActive
                     (applyUpdates r0
                        {| updateIsActive :=
                             Some (negb (RecurringTransaction.isActive r0));
                           updateLastGenerated := None |})))
      with (RecurringTransaction.isActive r0)
      by (cbn; rewrite negb_involutive; reflexivity).
    apply applyUpdates_toggle_back.
  - rewrite E. reflexivity.
Qed.

(** Scenario A, paused and resumed. *)
Lemma toggle_twice_restores_witness :
  exists r1,
    RecurringTransaction.isActive r1 = false
    /\ handleToggleActive (IdString "7") (Some r1)
         (handleToggleActive (IdString "7") (Some scenarioA) stateA)
       = stateA.
Proof.
  destruct (toggle_twice_restores 7 scenarioA stateA)
    as (r1 & _ & Hact & _ & Hback).
  - left. reflexivity.
  - reflexivity.
  - intros r [<- | []] _. reflexivity.
  - exists r1. split; [exact Hact | exact Hback].
Defined.

(** X16.  A [PATCH] that succeeds returns the stored row with at most
    [isActive] and [lastGenerated] changed, and only those of the two that
    the body carries; what defines the schedule (id, type, amount,
    category, description, frequency, start and end date) is never
    touched.  Sending the same body again changes nothing more. *)
Theorem patch_changes_only_status_and_checkpoint
    (existing row : RecurringTransaction.t) (body : PatchBody) :
  patchRecurring existing body = PatchOk row ->
  RecurringTransaction.id row = RecurringTransaction.id existing
  /\ RecurringTransaction.type row = RecurringTransaction.type existing
  /\ RecurringTransaction.amount row = RecurringTransaction.amount existing
  /\ RecurringTransaction.category row = RecurringTransaction.category existing
  /\ RecurringTransaction.description row
     = RecurringTransaction.description existing
  /\ RecurringTransaction.frequency row
     = RecurringTransaction.frequency existing
  /\ RecurringTransaction.startDate row
     = RecurringTransaction.startDate existing
  /\ RecurringTransaction.endDate row = RecurringTransaction.endDate existing
  /\ (bodyIsActive body = IsActiveUndefined ->
      RecurringTransaction.isActive row
      = RecurringTransaction.isActive existing)
  /\ (bodyLastGenerated body = LastGeneratedUndefined ->
      RecurringTransaction.lastGenerated row
      = RecurringTransaction.lastGenerated existing)
  /\ patchRecurring row body = PatchOk row.
Proof.
  unfold patchRecurring. destruct body as [ia lg]. cbn.
  destruct ia as [|b|b|]; destruct lg as [| |[t|]]; intros [= <-];
    destruct existing; cbn; repeat split; try reflexivity;
    intros; discriminate.
Qed.

(** The checkpoint request of the pass, applied to scenario A. *)
Lemma patch_changes_only_status_and_checkpoint_witness :
  RecurringTransaction.frequency
    (patchLastGenerated scenarioA (isoDate 2024 4 10 + 34200250))
  = monthly
  /\ RecurringTransaction.isActive
       (patchLastGenerated scenarioA (isoDate 2024 4 10 + 34200250))
     = true.
Proof.
  destruct (patch_changes_only_status_and_checkpoint scenarioA
              (patchLastGenerated scenarioA (isoDate 2024 4 10 + 34200250))
              {| bodyIsActive := IsActiveUndefined;
                 bodyLastGenerated :=
                   LastGeneratedValue (Some (isoDate 2024 4 10 + 34200250)) |}
              eq_refl)
    as (_ & _ & _ & _ & _ & Hf & _ & _ & Ha & _).
  split; [exact Hf | exact (Ha eq_refl)].
Defined.

Lemma handleAddBudget_map s prev :
  handleAddBudget s prev
  = if existsb (fun b => String.eqb (Budget.category b) (Budget.category s))
         prev
    then map (fun b => if String.eqb (Budget.category b) (Budget.category s)
                       then s else b) prev
    else prev ++ [s].
Proof.
  unfold handleAddBudget.
  induction prev as [|b prev IH]; [reflexivity|].
  cbn [find existsb].
  destruct (String.eqb (Budget.category b) (Budget.category s)) eqn:E;
    [reflexivity|].
  cbn [orb].
  destruct (find _ prev) eqn:F;
    destruct (existsb _ prev) eqn:X; try reflexivity.
  - apply find_some in F. destruct F as [Hin He].
    assert (existsb (fun b => String.eqb (Budget.category b)
                                (Budget.category s)) prev = true)
      by (apply existsb_exists; eauto).
    congruence.
  - apply existsb_exists in X. destruct X as (x & Hin & He).
    apply (find_none _ _ F) in Hin. congruence.
Qed.

(** X17.  Saving a budget keeps one budget per category.  If the
    categories of the list were distinct they stay distinct; afterwards the
    saved budget is in the list and is the only entry of its category; and
    the entries of the other categories are the previous ones, in their
    order. *)
Theorem add_budget_upserts (s : Budget.t) (prev : list Budget.t) :
  NoDup (map Budget.category prev) ->
  NoDup (map Budget.category (handleAddBudget s prev))
  /\ In s (handleAddBudget s prev)
  /\ (forall b, In b (handleAddBudget s prev) ->
                Budget.category b = Budget.category s -> b = s)
  /\ handleDeleteBudget (Budget.category s) (handleAddBudget s prev)
     = handleDeleteBudget (Budget.category s) prev.
Proof.
  intros Hnd. rewrite handleAddBudget_map.
  destruct (existsb _ prev) eqn:X.
  - assert (Hcat : map Budget.category
                     (map (fun b => if String.eqb (Budget.category b)
                                         (Budget.category s)
                                    then s else b) prev)
                   = map Budget.category prev).
    { rewrite map_map. apply map_ext. intros b.
      destruct (String.eqb_spec (Budget.category b) (Budget.category s));
        [symmetry; assumption|reflexivity]. }
    split; [rewrite Hcat; exact Hnd|]. split.
    { apply existsb_exists in X. destruct X as (x & Hin & He).
      apply in_map_iff. exists x. rewrite He. auto. }
    split.
    { intros b Hb Hc. apply in_map_iff in Hb. destruct Hb as (x & Hx & _).
      destruct (String.eqb_spec (Budget.category x) (Budget.category s));
        [symmetry; exact Hx|]. subst b. contradiction. }
    unfold handleDeleteBudget. clear. induction prev as [|b prev IH];
      [reflexivity|].
    cbn [map filter].
    destruct (String.eqb_spec (Budget.category b) (Budget.category s)) as [E|E].
    + rewrite String.eqb_refl. cbn [negb]. exact IH.
    + apply String.eqb_neq in E. rewrite E. cbn [negb]. rewrite IH.
      reflexivity.
  - assert (Hnot : ~ In (Budget.category s) (map Budget.category prev)).
    { intros Hin. apply in_map_iff in Hin. destruct Hin as (x & Hx & Hin).
      assert (existsb (fun b => String.eqb (Budget.category b)
                                  (Budget.category s)) prev = true).
      { apply existsb_exists. exists x. split; [exact Hin|].
        rewrite Hx. apply String.eqb_refl. }
      congruence. }
    split.
    { rewrite map_app. cbn. apply NoDup_app; [exact Hnd | | ].
      - constructor; [intros []|constructor].
      - intros c Hc [<- | []]. exact (Hnot Hc). }
    split; [apply in_or_app; right; left; reflexivity|].
    split.
    { intros b Hb Hc. apply in_app_or in Hb. destruct Hb as [Hb | [<- | []]];
        [|reflexivity].
      exfalso. apply Hnot. rewrite <- Hc. apply in_map, Hb. }
    unfold handleDeleteBudget. rewrite filter_app. cbn.
    rewrite String.eqb_refl. cbn. apply app_nil_r.
Qed.

(** Raising the limit of an existing category. *)
Lemma add_budget_upserts_witness :
  handleAddBudget (Budget.mk "food" (300 # 1)%Q)
    [Budget.mk "rent" (1200 # 1)%Q; Budget.mk "food" (250 # 1)%Q]
  = [Budget.mk "rent" (1200 # 1)%Q; Budget.mk "food" (300 # 1)%Q]
  /\ NoDup (map Budget.category
              (handleAddBudget (Budget.mk "food" (300 # 1)%Q)
                 [Budget.mk "rent" (1200 # 1)%Q;
                  Budget.mk "food" (250 # 1)%Q])).
Proof.
  split; [reflexivity|].
  apply (add_budget_upserts (Budget.mk "food" (300 # 1)%Q)
           [Budget.mk "rent" (1200 # 1)%Q; Budget.mk "food" (250 # 1)%Q]).
  repeat constructor; cbn; intuition discriminate.
Defined.

(** X18.  Deleting a budget removes every entry of the category and
    nothing else, and deleting the category of a budget that was just
    added to a list without that category gives back the list. *)
Theorem delete_budget_removes_category (category : string)
    (prev : list Budget.t) :
  (forall b, In b (handleDeleteBudget category prev) <->
             In b prev /\ Budget.category b <> category)
  /\ (forall s,
        Budget.category s = category ->
        ~ In category (map Budget.category prev) ->
        handleDeleteBudget category (handleAddBudget s prev) = prev).
Proof.
  split.
  - intros b. unfold handleDeleteBudget. rewrite filter_In.
    destruct (String.eqb_spec (Budget.category b) category); cbn;
      intuition congruence.
  - intros s Hs Hnot. rewrite handleAddBudget_map.
    replace (existsb (fun b => String.eqb (Budget.category b)
                                 (Budget.category s)) prev) with false.
    + unfold handleDeleteBudget. rewrite filter_app. cbn.
      rewrite Hs, String.eqb_refl. cbn. rewrite app_nil_r.
      clear s Hs. induction prev as [|b prev IH]; [reflexivity|].
      cbn [filter].
      destruct (String.eqb_spec (Budget.category b) category) as [E|E].
      * exfalso. apply Hnot. left. exact E.
      * cbn [negb]. rewrite IH; [reflexivity|].
        intros Hin. apply Hnot. right. exact Hin.
    + symmetry. apply not_true_is_false. intros X.
      apply existsb_exists in X. destruct X as (x & Hin & He).
      apply String.eqb_eq in He. apply Hnot. rewrite <- Hs, <- He.
      apply in_map, Hin.
Qed.

(** Adding and deleting a category that was not there. *)
Lemma delete_budget_removes_category_witness :
  handleDeleteBudget "food"
    (handleAddBudget (Budget.mk "food" (300 # 1)%Q)
       [Budget.mk "rent" (1200 # 1)%Q])
  = [Budget.mk "rent" (1200 # 1)%Q].
Proof.
  apply (proj2 (delete_budget_removes_category "food"
                  [Budget.mk "rent" (1200 # 1)%Q])).
  - reflexivity.
  - cbn. intuition discriminate.
Defined.

(** X19.  A schedule that [POST /api/recurring] stores has one of the four
    frequencies, a positive amount, a non-empty category, an end date (if
    any) strictly after its start date and no checkpoint.  So the
    generator returns for every stored schedule, given enough fuel, and its
    first run starts from the schedule's start day. *)
Theorem stored_schedule_is_well_formed
    (body : PostBody) (newId : Z) (row : RecurringTransaction.t) :
  postRecurring body newId = PostCreated row ->
  RecurringTransaction.id row = newId
  /\ validFrequency (RecurringTransaction.frequency row) = true
  /\ (0 < RecurringTransaction.amount row)%Q
  /\ RecurringTransaction.category row <> ""%string
  /\ (forall e, RecurringTransaction.endDate row = Some e ->
                RecurringTransaction.startDate row < e)
  /\ RecurringTransaction.lastGenerated row = None
  /\ checkFromDate row = startOfDay (RecurringTransaction.startDate row)
  /\ (forall currentDate fuel,
        (Z.to_nat (periodsElapsed (RecurringTransaction.frequency row)
                     (checkFromDate row) (startOfDay currentDate))
         < fuel)%nat ->
        exists l, generateDueTransactions fuel row currentDate = Some l).
Proof.
  unfold postRecurring. destruct body as [ty am cat desc fr sd ed ia]. cbn.
  destruct ty as [|ty|]; try discriminate;
    destruct am as [|[q|]]; try discriminate;
    destruct cat as [|cat|]; try discriminate;
    destruct fr as [|f]; try discriminate;
    destruct sd as [|[s|]]; try discriminate;
    destruct (Qle_bool q 0) eqn:Hq; try discriminate.
  2:{ destruct (String.length cat =? 0)%nat; [discriminate|].
      destruct (negb (validFrequency f)); discriminate. }
  destruct (String.length cat =? 0)%nat eqn:Hcat; [discriminate|].
  destruct (validFrequency f) eqn:Hf; [|discriminate]. cbn [negb].
  assert (Hend : forall e0,
             match ed with
             | DateFalsy => inl None
             | DateValue None => inr "INVALID_END_DATE"%string
             | DateValue (Some parsedEndDate) =>
               if parsedEndDate <=? s
               then inr "END_DATE_BEFORE_START"%string
               else inl (Some parsedEndDate)
             end = inl e0 ->
             forall e, e0 = Some e -> s < e).
  { intros e0 He0 e ->. destruct ed as [|[pe|]]; try discriminate.
    destruct (pe <=? s) eqn:Hle; [discriminate|].
    injection He0 as ->. apply Z.leb_gt in Hle. exact Hle. }
  destruct (match ed with
            | DateFalsy => inl None
            | DateValue None => inr "INVALID_END_DATE"%string
            | DateValue (Some parsedEndDate) =>
              if parsedEndDate <=? s
              then inr "END_DATE_BEFORE_START"%string
              else inl (Some parsedEndDate)
            end) as [e0|code] eqn:He0; [|discriminate].
  specialize (Hend e0 eq_refl).
  assert (Hrow : forall d a,
             row = RecurringTransaction.mk newId ty q cat d f s e0 None a ->
             RecurringTransaction.id row = newId
             /\ validFrequency (RecurringTransaction.frequency row) = true
             /\ (0 < RecurringTransaction.amount row)%Q
             /\ RecurringTransaction.category row <> ""%string
             /\ (forall e, RecurringTransaction.endDate row = Some e ->
                           RecurringTransaction.startDate row < e)
             /\ RecurringTransaction.lastGenerated row = None
             /\ checkFromDate row
                = startOfDay (RecurringTransaction.startDate row)
             /\ (forall currentDate fuel,
                   (Z.to_nat
                      (periodsElapsed (RecurringTransaction.frequency row)
                         (checkFromDate row) (startOfDay currentDate))
                    < fuel)%nat ->
                   exists l,
                     generateDueTransactions fuel row currentDate = Some l)).
  { intros d a ->. cbn.
    split; [reflexivity|]. split; [exact Hf|].
    split.
    { apply Qnot_le_lt. intros Hle. apply Qle_bool_iff in Hle. congruence. }
    split; [intros ->; discriminate|].
    split; [exact Hend|]. split; [reflexivity|]. split; [reflexivity|].
    intros currentDate fuel Hfuel.
    apply generateDueTransactions_returns; [exact Hf|exact Hfuel]. }
  destruct desc; intros [= <-]; eapply Hrow; reflexivity.
Qed.

(** A monthly rent from 2024-01-15 is stored as scenario A. *)
Lemma stored_schedule_is_well_formed_witness :
  validFrequency (RecurringTransaction.frequency scenarioA) = true
  /\ RecurringTransaction.lastGenerated scenarioA = None.
Proof.
  destruct (stored_schedule_is_well_formed
              {| postType := TypeValid expense;
                 postAmount := AmountParsed (Some (1200 # 1)%Q);
                 postCategory := TextString "Housing";
                 postDescription := TextString "Rent";
                 postFrequency := FrequencyValue monthly;
                 postStartDate := DateValue (Some (isoDate 2024 1 15));
                 postEndDate := DateFalsy;
                 postIsActive := IsActiveUndefined |}
              7 scenarioA eq_refl)
    as (_ & Hf & _ & _ & _ & Hl & _).
  split; [exact Hf | exact Hl].
Defined.
